(** * Insertion-point engine and drag session of the theme builder

    A shallow embedding of
    - [src/theme-builder/src/utils/insertionCalculator.ts]: the two functions
      named [calculateInsertionPoint] found in that file, the half-split one
      (lines 56-161, module [HalfSplit]) and the always-insert-below one
      (lines 218-297, module [AlwaysBelow]);
    - [src/unnamed/part_010] ([useDragAndDrop]): the drag-session handlers
      acting on [DragState] (module [DragSession]).

    Viewport coordinates are JavaScript numbers; they are modelled as
    rationals [Q] (no NaN, no rounding).  The DOM lookup
    [document.querySelector(...).getBoundingClientRect()] is the parameter
    [querySelector : string -> option DOMRect] ([None] when no element is
    rendered for the id); module [Throwing] adds the [SyntaxError] that
    [document.querySelector] can raise on the unescaped selector. *)

From Stdlib Require Import QArith List Ascii String Bool Arith Lia ZArith.
Import ListNotations.
Open Scope string_scope.
Open Scope nat_scope.
Open Scope list_scope.

(** ** Data model *)

(** The part of [getBoundingClientRect()] the calculator reads. *)
Record DOMRect := mkDOMRect {
  rect_top : Q;
  rect_bottom : Q;
  rect_height : Q
}.

(** The object built for each resolved id in [componentRects]. *)
Record ComponentRect := mkComponentRect {
  id : string;
  top : Q;
  bottom : Q;
  height : Q;
  centerY : Q
}.

Record InsertionCalculationParams := mkParams {
  cursorY : Q;
  componentIds : list string;
  draggedComponentId : option string
}.

Record InsertionCalculationResult := mkResult {
  insertionIndex : nat;
  hoveredComponentId : option string
}.

(** [a < b] on numbers. *)
Definition Qltb (a b : Q) : bool := negb (Qle_bool b a).

(** [component.id === draggedComponentId]; [null] (or [undefined]) never
    equals a string. *)
Definition idEq (x : string) (d : option string) : bool :=
  match d with
  | Some y => String.eqb x y
  | None => false
  end.

(** [.map((id) => ... return null / return {...})] for one id. *)
Definition toComponentRect (querySelector : string -> option DOMRect)
    (cid : string) : option ComponentRect :=
  match querySelector cid with
  | None => None
  | Some rect =>
      Some (mkComponentRect cid (rect_top rect) (rect_bottom rect)
              (rect_height rect) (rect_top rect + rect_height rect / 2)%Q)
  end.

(** [.filter((rect) => rect !== null)]. *)
Fixpoint filterNonNull {A : Type} (l : list (option A)) : list A :=
  match l with
  | [] => []
  | None :: rest => filterNonNull rest
  | Some a :: rest => a :: filterNonNull rest
  end.

Definition componentRects (querySelector : string -> option DOMRect)
    (componentIds : list string) : list ComponentRect :=
  filterNonNull (map (toComponentRect querySelector) componentIds).

(** [componentRects[componentRects.length - 1]] of a non-empty array. *)
Definition lastRect (first : ComponentRect) (rects : list ComponentRect)
  : ComponentRect := last rects first.

(** The common prologue of both variants: the early returns before the scan
    loop.  [scan] is the loop, run on [componentRects] from [i = 0]; it
    returns [None] when the loop finishes without returning. *)
Definition calculateWith
    (scan : Q -> option string -> nat -> list ComponentRect -> nat ->
            option InsertionCalculationResult)
    (querySelector : string -> option DOMRect)
    (params : InsertionCalculationParams) : InsertionCalculationResult :=
  let y := cursorY params in
  let ids := componentIds params in
  if Nat.eqb (List.length ids) 0 then mkResult 0 None
  else
    let rects := componentRects querySelector ids in
    match rects with
    | [] => mkResult 0 None
    | firstComponent :: _ =>
        if Qltb y (top firstComponent) then mkResult 0 None
        else
          let lastComponent := lastRect firstComponent rects in
          if Qltb (bottom lastComponent) y then mkResult (List.length ids) None
          else
            match scan y (draggedComponentId params) (List.length rects) rects 0 with
            | Some r => r
            | None => mkResult (List.length ids) None
            end
    end.

Module HalfSplit.

(** The [for] loop of lines 113-154; [n] is [componentRects.length],
    [i] the loop counter. *)
Fixpoint scan (y : Q) (dragged : option string) (n : nat)
    (rects : list ComponentRect) (i : nat)
    : option InsertionCalculationResult :=
  match rects with
  | [] => None
  | component :: rest =>
      if Qle_bool (top component) y && Qle_bool y (bottom component) then
        let isInTopHalf := Qltb y (centerY component) in
        if idEq (id component) dragged then
          if isInTopHalf && Nat.ltb 0 i then
            Some (mkResult i (Some (id component)))
          else if negb isInTopHalf && Nat.ltb i (n - 1) then
            Some (mkResult (i + 1) (Some (id component)))
          else scan y dragged n rest (S i)
        else if isInTopHalf then Some (mkResult i (Some (id component)))
        else Some (mkResult (i + 1) (Some (id component)))
      else scan y dragged n rest (S i)
  end.

Definition calculateInsertionPoint
    (querySelector : string -> option DOMRect)
    (params : InsertionCalculationParams) : InsertionCalculationResult :=
  calculateWith scan querySelector params.

End HalfSplit.

Module AlwaysBelow.

(** The [for] loop of lines 275-290. *)
Fixpoint scan (y : Q) (dragged : option string) (n : nat)
    (rects : list ComponentRect) (i : nat)
    : option InsertionCalculationResult :=
  match rects with
  | [] => None
  | component :: rest =>
      if Qle_bool (top component) y && Qle_bool y (bottom component) then
        if idEq (id component) dragged then scan y dragged n rest (S i)
        else Some (mkResult (i + 1) (Some (id component)))
      else scan y dragged n rest (S i)
  end.

Definition calculateInsertionPoint
    (querySelector : string -> option DOMRect)
    (params : InsertionCalculationParams) : InsertionCalculationResult :=
  calculateWith scan querySelector params.

End AlwaysBelow.

(** ** The DOM lookup with its error path

    [document.querySelector] parses its argument as a CSS selector and
    throws a [SyntaxError] when it does not parse; the code builds the
    selector [`[data-component-id="${id}"]`] without escaping [id].  Here a
    lookup maps the selector string to a completion: [Normal] with the
    rectangle of the element found, if any, or [Throw] with the name of the
    exception. *)

Module Throwing.

Inductive Completion (A : Type) : Type :=
| Normal (a : A)
| Throw (name : string).
Arguments Normal {A} a.
Arguments Throw {A} name.

(** The double-quote character. *)
Definition dq : string := String "034"%char EmptyString.

(** The template literal [`[data-component-id="${id}"]`]. *)
Definition selector (cid : string) : string :=
  ("[data-component-id=" ++ dq ++ cid ++ dq ++ "]")%string.

(** The lookups of [componentIds.map((id) => ...)], in order: the first
    call of [document.querySelector] that throws aborts the map (nothing
    else in the callback can throw). *)
Fixpoint queryAll (querySelector : string -> Completion (option DOMRect))
    (ids : list string) : Completion (list (option DOMRect)) :=
  match ids with
  | [] => Normal []
  | cid :: rest =>
      match querySelector (selector cid) with
      | Throw e => Throw e
      | Normal r =>
          match queryAll querySelector rest with
          | Throw e => Throw e
          | Normal rs => Normal (r :: rs)
          end
      end
  end.

(** The rectangle a lookup that returned gave for [cid]. *)
Definition returned (querySelector : string -> Completion (option DOMRect))
    (cid : string) : option DOMRect :=
  match querySelector (selector cid) with
  | Normal r => r
  | Throw _ => None
  end.

(** [calculateInsertionPoint] with lookups that may throw: the empty-list
    return comes before any lookup; a throwing lookup propagates; once every
    lookup has returned, the function goes on as [calculateWith] on the
    rectangles they returned. *)
Definition calculateInsertionPointWith
    (scan : Q -> option string -> nat -> list ComponentRect -> nat ->
            option InsertionCalculationResult)
    (querySelector : string -> Completion (option DOMRect))
    (params : InsertionCalculationParams)
    : Completion InsertionCalculationResult :=
  if Nat.eqb (List.length (componentIds params)) 0
  then Normal (mkResult 0 None)
  else
    match queryAll querySelector (componentIds params) with
    | Throw e => Throw e
    | Normal _ => Normal (calculateWith scan (returned querySelector) params)
    end.

Definition halfSplit := calculateInsertionPointWith HalfSplit.scan.
Definition alwaysBelow := calculateInsertionPointWith AlwaysBelow.scan.

(** Characters a CSS string token closed by a double quote cannot hold
    unescaped. *)
Definition plainChar (c : Ascii.ascii) : bool :=
  negb (Ascii.eqb c "034"%char || Ascii.eqb c "\"%char
        || Ascii.eqb c "010"%char).

(** After the opening quote: the value up to the closing quote, which must
    be followed by [] and the end of the string. *)
Fixpoint valueThenClose (s : string) : bool :=
  match s with
  | EmptyString => false
  | String c rest =>
      if Ascii.eqb c "034"%char then String.eqb rest "]"
      else plainChar c && valueThenClose rest
  end.

Fixpoint stripPrefix (pre s : string) : option string :=
  match pre, s with
  | EmptyString, _ => Some s
  | String c pre', String c' s' =>
      if Ascii.eqb c c' then stripPrefix pre' s' else None
  | String _ _, EmptyString => None
  end.

(** A document with no component rendered, whose selector parser accepts
    the attribute selector [[data-component-id="v"]] with a plain value [v]
    and raises a [SyntaxError] on any other string.  On the selector built
    from [quotedId] (the letter a, a double quote, the letter b) a real CSS
    parser also fails: the quoted value closes after the a, and is followed
    by the identifier b where the grammar expects an attribute modifier
    ([i] or [s]) or the closing bracket, while the only closing bracket left
    lies inside an unterminated string. *)
Definition emptyDocument (sel : string) : Completion (option DOMRect) :=
  match stripPrefix ("[data-component-id=" ++ dq)%string sel with
  | Some rest => if valueThenClose rest then Normal None else Throw "SyntaxError"
  | None => Throw "SyntaxError"
  end.

(** No lookup of the ids throws. *)
Definition lookupsReturn (querySelector : string -> Completion (option DOMRect))
    (ids : list string) : Prop :=
  forall cid, In cid ids -> forall e, querySelector (selector cid) <> Throw e.

(** An id holding a double quote. *)
Definition quotedId : string := ("a" ++ dq ++ "b")%string.

End Throwing.

(** The geometry of the unit tests: three boxes of height 100 with a gap of
    10, starting at 100. *)
Definition testRects (cid : string) : option DOMRect :=
  if String.eqb cid "comp-1" then Some (mkDOMRect 100%Q 200%Q 100%Q)
  else if String.eqb cid "comp-2" then Some (mkDOMRect 210%Q 310%Q 100%Q)
  else if String.eqb cid "comp-3" then Some (mkDOMRect 320%Q 420%Q 100%Q)
  else None.

Definition testIds : list string := ["comp-1"; "comp-2"; "comp-3"].

(** The resolved boxes of the unit-test geometry. *)
Local Open Scope Q_scope.
Definition testBox1 : ComponentRect := mkComponentRect "comp-1" 100 200 100 (100 + 100 / 2).
Definition testBox2 : ComponentRect := mkComponentRect "comp-2" 210 310 100 (210 + 100 / 2).
Definition testBox3 : ComponentRect := mkComponentRect "comp-3" 320 420 100 (320 + 100 / 2).

Local Close Scope Q_scope.

(** ** Geometry of a resolved box list

    [stackedAround y pre c post]: the resolved boxes are [pre ++ c :: post],
    the boxes of [pre] lie wholly above the cursor, the cursor lies within
    [c] (bounds inclusive), and every later box ends at or below the cursor.
    This is the situation of a vertical stack whose box under the cursor is
    [c]. *)
Definition stackedAround (y : Q) (pre : list ComponentRect) (c : ComponentRect)
    (post : list ComponentRect) : Prop :=
  Forall (fun b => top b <= bottom b /\ bottom b < y)%Q pre /\
  (top c <= y /\ y <= bottom c)%Q /\
  Forall (fun b => y <= bottom b)%Q post.

(** A boolean reading of [stackedAround], to decide it on concrete boxes. *)
Definition stackedAroundb (y : Q) (pre : list ComponentRect) (c : ComponentRect)
    (post : list ComponentRect) : bool :=
  forallb (fun b => Qle_bool (top b) (bottom b) && Qltb (bottom b) y) pre &&
  (Qle_bool (top c) y && Qle_bool y (bottom c)) &&
  forallb (fun b => Qle_bool y (bottom b)) post.

(** What a loop result may be: an index at most the loop's end, a hovered id
    among the boxes scanned. *)
Definition scanBounded
    (scan : Q -> option string -> nat -> list ComponentRect -> nat ->
            option InsertionCalculationResult) : Prop :=
  forall y d n rects i r,
    scan y d n rects i = Some r ->
    insertionIndex r <= i + List.length rects /\
    (forall h, hoveredComponentId r = Some h -> In h (map id rects)).

(** ** The drag session: [useDragAndDrop] of [src/unnamed/part_010] *)

Module DragSession.

Record DragState := mkDragState {
  isDragging : bool;
  draggedComponentType : option string;
  draggedId : option string;
  isReordering : bool;
  isOverCanvas : bool;
  insertionIndex : option nat;
  hoveredComponentId : option string
}.

(** The state of [useState] at mount, and of every reset. *)
Definition idleState : DragState :=
  mkDragState false None None false false None None.

(** [data.current] of a draggable or droppable ([?.type],
    [?.componentType], [?.index]; [None] for [undefined]). *)
Record DndData := mkDndData {
  data_type : option string;
  data_componentType : option string;
  data_index : option nat
}.

(** [event.active]: its id, data and [rect.current.translated] (top and
    height when measured). *)
Record Active := mkActive {
  active_id : string;
  active_data : DndData;
  active_translated : option (Q * Q)
}.

Record Over := mkOver {
  over_id : string;
  over_data : DndData
}.

Record DragMoveEvent := mkDragMoveEvent {
  move_active : Active;
  move_over : option Over;
  move_delta : bool  (** truthiness of [event.delta] *)
}.

Record DragEndEvent := mkDragEndEvent {
  end_active : Active;
  end_over : option Over
}.

(** What the handlers do outside the state: the two callbacks of the hook
    and the toast. *)
Inductive Effect :=
| Toast (message : string)
| ComponentAdd (componentType : string) (atIndex : nat)
| ComponentReorder (fromIndex toIndex : Z).

Definition optStringEqb (a b : option string) : bool :=
  match a, b with
  | Some x, Some y => String.eqb x y
  | None, None => true
  | _, _ => false
  end.

Definition optNatEqb (a b : option nat) : bool :=
  match a, b with
  | Some x, Some y => Nat.eqb x y
  | None, None => true
  | _, _ => false
  end.

(** A string is truthy when non-empty. *)
Definition truthy (s : option string) : bool :=
  match s with
  | Some x => negb (String.eqb x "")
  | None => false
  end.

(** [componentType || dragType]. *)
Definition orString (a b : option string) : option string :=
  if truthy a then a else b.

(** [layout.findIndex((item) => item.id === x)], [-1] when absent. *)
Fixpoint findIndex (layout : list string) (x : string) : Z :=
  match layout with
  | [] => (-1)%Z
  | y :: rest =>
      if String.eqb y x then 0%Z
      else match findIndex rest x with
           | (-1)%Z => (-1)%Z
           | k => (k + 1)%Z
           end
  end.

Definition handleDragStart (active : Active) : DragState :=
  let componentType := data_componentType (active_data active) in
  let dragType := data_type (active_data active) in
  mkDragState true (orString componentType dragType) (Some (active_id active))
    (optStringEqb dragType (Some "canvas-component")) false None None.

Section Handlers.
(** The DOM geometry and the hook's [layout] argument (its ids). *)
Variable querySelector : string -> option DOMRect.
Variable layout : list string.

(** Lines 49-80 of [handleDragMove]: the sample taken from the event,
    [(isOverCanvas, (insertionIndex, hoveredComponentId))]. *)
Definition moveSample (dragState : DragState) (event : DragMoveEvent)
  : bool * (option nat * option string) :=
  let overType :=
    match move_over event with
    | Some o => data_type (over_data o)
    | None => None
    end in
  let isOverCanvas := optStringEqb overType (Some "canvas-component") in
  (isOverCanvas,
   if isOverCanvas && move_delta event then
     match active_translated (move_active event) with
     | Some (rtop, rheight) =>
         let cursorY := (rtop + rheight / 2)%Q in
         let draggedComponentId := active_id (move_active event) in
         match HalfSplit.calculateInsertionPoint querySelector
                 (mkParams cursorY layout
                    (if isReordering dragState
                     then Some draggedComponentId else None)) with
         | mkResult i h => (Some i, h)
         end
     | None => (None, None)
     end
   else (None, None)).

(** [handleDragMove]: the sample, then the updater of lines 83-97.
    [dragState], read by the handler, and [prev], passed to the updater,
    are both the current state. *)
Definition handleDragMove (dragState : DragState) (event : DragMoveEvent)
  : DragState :=
  let '(isOverCanvas, (insertionIndex, hoveredComponentId)) :=
    moveSample dragState event in
  let prev := dragState in
  if negb (Bool.eqb (DragSession.isOverCanvas prev) isOverCanvas)
     || negb (optNatEqb (DragSession.insertionIndex prev) insertionIndex)
     || negb (optStringEqb (DragSession.hoveredComponentId prev)
                hoveredComponentId)
  then mkDragState (isDragging prev) (draggedComponentType prev)
         (draggedId prev) (isReordering prev) isOverCanvas insertionIndex
         hoveredComponentId
  else prev.

Definition handleDragEnd (dragState : DragState) (event : DragEndEvent)
  : DragState * list Effect :=
  let active := end_active event in
  match end_over event with
  | None =>
      let activeType := data_type (active_data active) in
      let isLibraryComponent :=
        negb (optStringEqb activeType (Some "canvas-component")) in
      (idleState,
       if isLibraryComponent
       then [Toast "Drop component on the canvas to add it"] else [])
  | Some over =>
      let activeType := data_type (active_data active) in
      let insertionIndex := DragSession.insertionIndex dragState in
      let effects :=
        if optStringEqb activeType (Some "canvas-component") then
          let oldIndex := findIndex layout (active_id active) in
          let newIndex :=
            match insertionIndex with
            | Some ins =>
                if Z.ltb oldIndex (Z.of_nat ins)
                then (Z.of_nat ins - 1)%Z else Z.of_nat ins
            | None => findIndex layout (over_id over)
            end in
          if negb (Z.eqb oldIndex (-1)) && negb (Z.eqb newIndex (-1))
             && negb (Z.eqb oldIndex newIndex)
          then [ComponentReorder oldIndex newIndex] else []
        else
          let componentType := data_componentType (active_data active) in
          let dropIndex :=
            match insertionIndex with
            | Some ins => Some ins
            | None => data_index (over_data over)
            end in
          match componentType, dropIndex with
          | Some ct, Some idx =>
              if truthy (Some ct) then [ComponentAdd ct idx] else []
          | _, _ => []
          end in
      (idleState, effects)
  end.

End Handlers.

Definition handleDragCancel : DragState := idleState.

(** The four handlers as one step of the session: the state after the
    event and the effects it performed. *)
Inductive DragEvent :=
| DragStart (active : Active)
| DragMove (event : DragMoveEvent)
| DragEnd (event : DragEndEvent)
| DragCancel.

Definition dispatch (querySelector : string -> option DOMRect)
    (layout : list string) (s : DragState) (ev : DragEvent)
    : DragState * list Effect :=
  match ev with
  | DragStart active => (handleDragStart active, [])
  | DragMove event => (handleDragMove querySelector layout s event, [])
  | DragEnd event => handleDragEnd layout s event
  | DragCancel => (handleDragCancel, [])
  end.

(** The states reachable from the mounted hook; the geometry and the
    layout may differ at every event. *)
Inductive reachable : DragState -> Prop :=
| reachable_idle : reachable idleState
| reachable_step qs layout s ev :
    reachable s -> reachable (fst (dispatch qs layout s ev)).

(** An effect that changes the layout (a callback of the hook). *)
Definition isLayoutMutation (e : Effect) : bool :=
  match e with
  | Toast _ => false
  | ComponentAdd _ _ | ComponentReorder _ _ => true
  end.

(** Modelled from the spec: [reorderComponent] of [useWorkspace], the
    [onComponentReorder] callback, is not in the sources.  Section 4.3:
    remove the entry at [fromIndex], then insert it at [toIndex]. *)
Definition reorderComponent {A : Type} (order : list A) (fromIndex toIndex : Z)
    : list A :=
  let from := Z.to_nat fromIndex in
  let to := Z.to_nat toIndex in
  match nth_error order from with
  | None => order
  | Some x =>
      let removed := firstn from order ++ skipn (S from) order in
      firstn to removed ++ x :: skipn to removed
  end.

(** The reorders among the effects, applied to the layout in turn. *)
Definition applyReorders {A : Type} (order : list A) (effects : list Effect)
    : list A :=
  fold_left (fun o e => match e with
                        | ComponentReorder f t => reorderComponent o f t
                        | _ => o
                        end) effects order.

(** Sample events.  A canvas item being reordered; its rectangle not yet measured. *)
Definition unmeasuredActive : Active :=
  mkActive "comp-1" (mkDndData (Some "canvas-component") None None) None.

(** The same item, measured: top 100, height 100. *)
Definition measuredActive : Active :=
  mkActive "comp-1" (mkDndData (Some "canvas-component") None None)
    (Some (100%Q, 100%Q)).

Definition overComp2 : Over :=
  mkOver "comp-2" (mkDndData (Some "canvas-component") None None).

(** The spec's reorder scenario: layout [A; B; C], A dragged, the last
    sample resolved to index 2, dropped over B. *)
Definition activeA : Active :=
  mkActive "A" (mkDndData (Some "canvas-component") None None) None.

Definition stateA : DragState :=
  mkDragState true (Some "canvas-component") (Some "A") true true
    (Some 2) (Some "B").

Definition overB : Over :=
  mkOver "B" (mkDndData (Some "canvas-component") None None).

(** The states reachable in one session over a fixed geometry and a fixed
    layout (the layout changes only through the callbacks, after a drop). *)
Inductive reachableIn (qs : string -> option DOMRect) (layout : list string)
  : DragState -> Prop :=
| reachableIn_idle : reachableIn qs layout idleState
| reachableIn_step s ev :
    reachableIn qs layout s ->
    reachableIn qs layout (fst (dispatch qs layout s ev)).

(** A library item (a component type from the sidebar), measured at top 100
    with height 100. *)
Definition libraryActive : Active :=
  mkActive "library-hero" (mkDndData (Some "library-component") (Some "Hero") None)
    (Some (100%Q, 100%Q)).

End DragSession.

(** ** The earlier drag hook: [useDragAndDrop] of [src/unnamed/part_011]

    It has no insertion point: a reorder targets the index of the item
    dropped over, an add the index carried by the drop target. *)

Module LegacyDragSession.
Import DragSession.

Record DragState := mkDragState {
  isDragging : bool;
  draggedComponentType : option string;
  draggedId : option string;
  isReordering : bool;
  isOverDropZone : bool;
  isOverCanvas : bool
}.

Definition idleState : DragState :=
  mkDragState false None None false false false.

(** [handleDragEnd] of lines 66-118, with [layout] the ids of the hook's
    layout argument. *)
Definition handleDragEnd (layout : list string) (event : DragEndEvent)
  : DragState * list Effect :=
  let active := end_active event in
  match end_over event with
  | None =>
      let activeType := data_type (active_data active) in
      let isLibraryComponent :=
        negb (optStringEqb activeType (Some "canvas-component")) in
      (idleState,
       if isLibraryComponent
       then [Toast "Drop component on the canvas to add it"] else [])
  | Some over =>
      let activeType := data_type (active_data active) in
      let effects :=
        if optStringEqb activeType (Some "canvas-component") then
          let oldIndex := findIndex layout (active_id active) in
          let newIndex := findIndex layout (over_id over) in
          if negb (Z.eqb oldIndex (-1)) && negb (Z.eqb newIndex (-1))
             && negb (Z.eqb oldIndex newIndex)
          then [ComponentReorder oldIndex newIndex] else []
        else
          let componentType := data_componentType (active_data active) in
          let dropIndex := data_index (over_data over) in
          match componentType, dropIndex with
          | Some ct, Some idx =>
              if truthy (Some ct) then [ComponentAdd ct idx] else []
          | _, _ => []
          end in
      (idleState, effects)
  end.

End LegacyDragSession.

(** ** [conditionalAxisRestriction] of
    [src/theme-builder/src/utils/dragModifiers.ts] *)

Module DragModifiers.
Import DragSession.

Record Transform := mkTransform {
  x : Q;
  y : Q;
  scaleX : Q;
  scaleY : Q
}.

(** [activeData] is [active.data.current]; [None] covers a missing
    [active], [active.data] or [active.data.current]. *)
Definition conditionalAxisRestriction (transform : Transform)
    (activeData : option DndData) : Transform :=
  match activeData with
  | None => transform
  | Some data =>
      let isReordering :=
        optStringEqb (data_type data) (Some "canvas-component") in
      if isReordering
      then mkTransform 0 (y transform) (scaleX transform) (scaleY transform)
      else transform
  end.

End DragModifiers.

(** ** The delete confirmation of [Canvas]
    ([src/theme-builder/src/components/workspace/Canvas.tsx], lines 35-51) *)

Module DeleteDialog.

(** The state is [deleteConfirmId]; the effect a call of
    [onComponentDelete].  [if (deleteConfirmId)] is false for [null] and
    for the empty string. *)
Inductive DialogEvent :=
| DeleteClick (cid : string)
| ConfirmDelete
| CancelDelete.

Definition handleDeleteClick (cid : string) : option string := Some cid.

Definition handleConfirmDelete (deleteConfirmId : option string)
  : option string * list string :=
  match deleteConfirmId with
  | Some cid =>
      if String.eqb cid "" then (deleteConfirmId, []) else (None, [cid])
  | None => (deleteConfirmId, [])
  end.

Definition handleCancelDelete : option string := None.

Definition dialogStep (deleteConfirmId : option string) (ev : DialogEvent)
  : option string * list string :=
  match ev with
  | DeleteClick cid => (handleDeleteClick cid, [])
  | ConfirmDelete => handleConfirmDelete deleteConfirmId
  | CancelDelete => (handleCancelDelete, [])
  end.

(** A run of the dialog from [deleteConfirmId], with the ids deleted in
    order. *)
Fixpoint runDialog (deleteConfirmId : option string) (evs : list DialogEvent)
  : option string * list string :=
  match evs with
  | [] => (deleteConfirmId, [])
  | ev :: rest =>
      let '(st, deleted) := dialogStep deleteConfirmId ev in
      let '(st', deleted') := runDialog st rest in
      (st', deleted ++ deleted')
  end.

(** The ids clicked in a run. *)
Fixpoint clicked (evs : list DialogEvent) : list string :=
  match evs with
  | [] => []
  | DeleteClick cid :: rest => cid :: clicked rest
  | _ :: rest => clicked rest
  end.

End DeleteDialog.

(** ** Evaluations on the test geometry *)

Example test_top_half :
  HalfSplit.calculateInsertionPoint testRects (mkParams 130%Q testIds None)
  = mkResult 0 (Some "comp-1").
Proof. reflexivity. Qed.

Example test_bottom_half_middle :
  HalfSplit.calculateInsertionPoint testRects (mkParams 280%Q testIds None)
  = mkResult 2 (Some "comp-2").
Proof. reflexivity. Qed.

Example test_own_bottom_half :
  HalfSplit.calculateInsertionPoint testRects (mkParams 170%Q testIds (Some "comp-1"))
  = mkResult 1 (Some "comp-1").
Proof. reflexivity. Qed.

Example test_below_all :
  HalfSplit.calculateInsertionPoint testRects (mkParams 500%Q testIds None)
  = mkResult 3 None.
Proof. reflexivity. Qed.

(** ** Basic facts *)

Ltac case_ifs :=
  repeat match goal with
         | |- context [if ?b then _ else _] => destruct b
         end.

Lemma Qltb_true (a b : Q) : Qltb a b = true <-> (a < b)%Q.
Proof.
  unfold Qltb. rewrite negb_true_iff. split.
  - intros H. apply Qnot_le_lt. rewrite <- Qle_bool_iff. congruence.
  - intros H. apply not_true_iff_false. rewrite Qle_bool_iff.
    apply Qlt_not_le. exact H.
Qed.

Lemma Qltb_false (a b : Q) : Qltb a b = false <-> (b <= a)%Q.
Proof.
  unfold Qltb. rewrite negb_false_iff. apply Qle_bool_iff.
Qed.

Lemma toComponentRect_id qs cid c :
  toComponentRect qs cid = Some c -> id c = cid.
Proof.
  unfold toComponentRect. destruct (qs cid); intros H; inversion H; reflexivity.
Qed.

Lemma componentRects_cons qs cid ids :
  componentRects qs (cid :: ids) =
  match toComponentRect qs cid with
  | Some c => c :: componentRects qs ids
  | None => componentRects qs ids
  end.
Proof. unfold componentRects. simpl. destruct (toComponentRect qs cid); reflexivity. Qed.

Lemma componentRects_length qs ids :
  List.length (componentRects qs ids) <= List.length ids.
Proof.
  induction ids as [|cid ids IH]; [simpl; lia|].
  rewrite componentRects_cons. destruct (toComponentRect qs cid); simpl; lia.
Qed.

Lemma componentRects_In qs ids c :
  In c (componentRects qs ids) -> In (id c) ids.
Proof.
  induction ids as [|cid ids IH]; [simpl; tauto|].
  rewrite componentRects_cons. destruct (toComponentRect qs cid) eqn:E.
  - intros [H | H]; [subst; left; symmetry; exact (toComponentRect_id _ _ _ E) | right; auto].
  - intros H. right. auto.
Qed.

Lemma last_app_cons_In (pre post : list ComponentRect) c d :
  In (last (pre ++ c :: post) d) (c :: post).
Proof.
  assert (Hbase : forall c' post', In (last (c' :: post') d) (c' :: post')).
  { intros c' post'. revert c'.
    induction post' as [|c'' post'' IH]; intros c'.
    - simpl. left. reflexivity.
    - change (last (c' :: c'' :: post'') d) with (last (c'' :: post'') d).
      right. apply IH. }
  induction pre as [|a pre IH]; [apply Hbase|].
  simpl. destruct (pre ++ c :: post) eqn:E.
  - destruct pre; discriminate.
  - exact IH.
Qed.

(** Under [stackedAround] the early returns of the prologue are not taken:
    the result is the loop's, or the end-of-list fallback.  Holds for both
    variants (any loop [scan]). *)
Lemma calculateWith_stacked scan qs p pre c post :
  componentRects qs (componentIds p) = pre ++ c :: post ->
  stackedAround (cursorY p) pre c post ->
  calculateWith scan qs p =
  match scan (cursorY p) (draggedComponentId p)
             (List.length (pre ++ c :: post)) (pre ++ c :: post) 0 with
  | Some r => r
  | None => mkResult (List.length (componentIds p)) None
  end.
Proof.
  intros Hr [Hpre [[Hct Hcb] Hpost]].
  pose proof (componentRects_length qs (componentIds p)) as Hlen.
  rewrite Hr, length_app in Hlen. simpl in Hlen.
  unfold calculateWith. cbv zeta.
  destruct (Nat.eqb_spec (List.length (componentIds p)) 0) as [E|_]; [lia|].
  rewrite Hr.
  assert (Hlast : forall d, (cursorY p <= bottom (last (pre ++ c :: post) d))%Q).
  { intros d. pose proof (last_app_cons_In pre post c d) as Hin.
    destruct Hin as [<- | Hin]; [exact Hcb|].
    rewrite Forall_forall in Hpost. apply Hpost. exact Hin. }
  destruct (pre ++ c :: post) as [|first rest] eqn:E; [destruct pre; discriminate|].
  assert (Hfirst : (top first <= cursorY p)%Q).
  { destruct pre as [|b pre']; simpl in E; inversion E; subst; [exact Hct|].
    inversion Hpre as [|? ? [Hb1 Hb2] _]; subst.
    apply Qle_trans with (bottom first); [exact Hb1 | apply Qlt_le_weak; exact Hb2]. }
  replace (Qltb (cursorY p) (top first)) with false
    by (symmetry; apply Qltb_false; exact Hfirst).
  unfold lastRect.
  replace (Qltb (bottom (last (first :: rest) first)) (cursorY p)) with false
    by (symmetry; apply Qltb_false; apply Hlast).
  reflexivity.
Qed.

Lemma HalfSplit_scan_skip y d n pre rest i :
  Forall (fun b => bottom b < y)%Q pre ->
  HalfSplit.scan y d n (pre ++ rest) i = HalfSplit.scan y d n rest (i + List.length pre).
Proof.
  revert i. induction pre as [|b pre IH]; intros i Hpre.
  - simpl. rewrite Nat.add_0_r. reflexivity.
  - inversion Hpre as [|? ? Hb Hpre']; subst. simpl.
    replace (Qle_bool y (bottom b)) with false
      by (symmetry; apply not_true_iff_false; rewrite Qle_bool_iff;
          apply Qlt_not_le; exact Hb).
    rewrite andb_false_r, IH by exact Hpre'. f_equal. lia.
Qed.

Lemma AlwaysBelow_scan_skip y d n pre rest i :
  Forall (fun b => bottom b < y)%Q pre ->
  AlwaysBelow.scan y d n (pre ++ rest) i =
  AlwaysBelow.scan y d n rest (i + List.length pre).
Proof.
  revert i. induction pre as [|b pre IH]; intros i Hpre.
  - simpl. rewrite Nat.add_0_r. reflexivity.
  - inversion Hpre as [|? ? Hb Hpre']; subst. simpl.
    replace (Qle_bool y (bottom b)) with false
      by (symmetry; apply not_true_iff_false; rewrite Qle_bool_iff;
          apply Qlt_not_le; exact Hb).
    rewrite andb_false_r, IH by exact Hpre'. f_equal. lia.
Qed.

Lemma stackedAround_pre_below y pre c post :
  stackedAround y pre c post -> Forall (fun b => bottom b < y)%Q pre.
Proof.
  intros [Hpre _]. eapply Forall_impl; [|exact Hpre]. simpl. tauto.
Qed.

(** The half-split result when the box under the cursor is [c], at index
    [length pre] of the resolved list. *)
Lemma HalfSplit_stacked qs p pre c post :
  componentRects qs (componentIds p) = pre ++ c :: post ->
  stackedAround (cursorY p) pre c post ->
  HalfSplit.calculateInsertionPoint qs p =
  let y := cursorY p in
  let i := List.length pre in
  let n := List.length (pre ++ c :: post) in
  let fallback := mkResult (List.length (componentIds p)) None in
  let isInTopHalf := Qltb y (centerY c) in
  if idEq (id c) (draggedComponentId p) then
    if isInTopHalf && Nat.ltb 0 i then mkResult i (Some (id c))
    else if negb isInTopHalf && Nat.ltb i (n - 1) then
      mkResult (i + 1) (Some (id c))
    else
      match HalfSplit.scan y (draggedComponentId p) n post (S i) with
      | Some r => r
      | None => fallback
      end
  else if isInTopHalf then mkResult i (Some (id c))
  else mkResult (i + 1) (Some (id c)).
Proof.
  intros Hr Hs. unfold HalfSplit.calculateInsertionPoint.
  rewrite (calculateWith_stacked _ _ _ _ _ _ Hr Hs).
  rewrite HalfSplit_scan_skip by exact (stackedAround_pre_below _ _ _ _ Hs).
  destruct Hs as [_ [[Hct Hcb] _]].
  simpl HalfSplit.scan at 1.
  rewrite (proj2 (Qle_bool_iff _ _) Hct), (proj2 (Qle_bool_iff _ _) Hcb).
  simpl andb. cbv zeta.
  destruct (idEq (id c) (draggedComponentId p));
    destruct (Qltb (cursorY p) (centerY c)); simpl; try reflexivity.
  - destruct (Nat.ltb 0 (List.length pre)); simpl; [reflexivity|].
    destruct (HalfSplit.scan _ _ _ post _); reflexivity.
  - destruct (Nat.ltb _ _); simpl; [reflexivity|].
    destruct (HalfSplit.scan _ _ _ post _); reflexivity.
Qed.

Lemma stackedAroundb_sound y pre c post :
  stackedAroundb y pre c post = true -> stackedAround y pre c post.
Proof.
  unfold stackedAroundb, stackedAround.
  rewrite !andb_true_iff, !forallb_forall. intros [[Hpre [Ht Hb]] Hpost].
  rewrite Qle_bool_iff in Ht, Hb. split; [|split; [split; assumption|]].
  - apply Forall_forall. intros b Hin. specialize (Hpre b Hin).
    rewrite andb_true_iff, Qle_bool_iff, Qltb_true in Hpre. exact Hpre.
  - apply Forall_forall. intros b Hin. apply Qle_bool_iff. apply Hpost, Hin.
Qed.

Lemma testRects_resolved :
  componentRects testRects testIds = [] ++ testBox1 :: [testBox2; testBox3] /\
  componentRects testRects testIds = [testBox1] ++ testBox2 :: [testBox3] /\
  componentRects testRects testIds = [testBox1; testBox2] ++ testBox3 :: [].
Proof. vm_compute. repeat split; reflexivity. Qed.

Lemma idEq_true x d : idEq x d = true -> d = Some x.
Proof.
  destruct d as [y|]; simpl; [|discriminate].
  intros H. apply String.eqb_eq in H. subst. reflexivity.
Qed.

Lemma ltb_last_index (pre post : list ComponentRect) c :
  Nat.ltb (List.length pre) (List.length (pre ++ c :: post) - 1) =
  match post with [] => false | _ :: _ => true end.
Proof.
  rewrite length_app. simpl.
  destruct post as [|b post]; simpl.
  - apply Nat.ltb_ge. lia.
  - apply Nat.ltb_lt. lia.
Qed.

(** ** Claims on the insertion calculator *)

(** Claim C1 (corrected).  At the exact vertical center of a box that is not
    the dragged one, [isInTopHalf = cursorY < centerY] is false: the
    bottom-half rule applies and the function returns [{i + 1, id}] (insert
    after), [i] being the box's index in the resolved box list. *)
Theorem halfSplit_center_is_bottom_half qs p pre c post :
  componentRects qs (componentIds p) = pre ++ c :: post ->
  stackedAround (cursorY p) pre c post ->
  idEq (id c) (draggedComponentId p) = false ->
  (cursorY p == centerY c)%Q ->
  HalfSplit.calculateInsertionPoint qs p =
  mkResult (List.length pre + 1) (Some (id c)).
Proof.
  intros Hr Hs Hd Hq.
  rewrite (HalfSplit_stacked _ _ _ _ _ Hr Hs). cbv zeta. rewrite Hd.
  replace (Qltb (cursorY p) (centerY c)) with false; [reflexivity|].
  symmetry. apply Qltb_false. apply Qle_lteq. right. apply Qeq_sym. exact Hq.
Qed.

(** Witness of [halfSplit_center_is_bottom_half]: the test geometry, cursor
    at 150, the center of comp-1. *)
Lemma halfSplit_center_is_bottom_half_witness :
  HalfSplit.calculateInsertionPoint testRects (mkParams 150 testIds None) =
  mkResult 1 (Some "comp-1").
Proof.
  apply (halfSplit_center_is_bottom_half testRects (mkParams 150 testIds None)
           [] testBox1 [testBox2; testBox3]).
  - exact (proj1 testRects_resolved).
  - apply stackedAroundb_sound. reflexivity.
  - reflexivity.
  - reflexivity.
Defined.

(** Counterexample to claim C1 as stated: at the center of comp-1 (150) the
    result is [{1, comp-1}], not the top-half [{0, comp-1}]. *)
Lemma halfSplit_center_counterexample :
  HalfSplit.calculateInsertionPoint testRects (mkParams 150 testIds None) =
  mkResult 1 (Some "comp-1") /\
  HalfSplit.calculateInsertionPoint testRects (mkParams 150 testIds None) <>
  mkResult 0 (Some "comp-1").
Proof. split; vm_compute; [reflexivity | discriminate]. Qed.

(** Claim C2 (corrected).  When the box under the cursor is the dragged
    component's own, at index [i = length pre] of the resolved list: a
    dragged box with neighbours on both sides always resolves on itself; the
    top half with a predecessor returns [{i, id}], the bottom half with a
    successor returns [{i + 1, id}]; only the top half of the first box
    continues the scan, and the bottom half of the last box falls back to
    [{componentIds.length, null}]. *)
Theorem halfSplit_dragged_box_rule qs p pre c post :
  componentRects qs (componentIds p) = pre ++ c :: post ->
  stackedAround (cursorY p) pre c post ->
  idEq (id c) (draggedComponentId p) = true ->
  let y := cursorY p in
  let r := HalfSplit.calculateInsertionPoint qs p in
  (0 < List.length pre -> post <> [] -> hoveredComponentId r = Some (id c)) /\
  (Qltb y (centerY c) = true -> 0 < List.length pre ->
     r = mkResult (List.length pre) (Some (id c))) /\
  (Qltb y (centerY c) = false -> post <> [] ->
     r = mkResult (List.length pre + 1) (Some (id c))) /\
  (Qltb y (centerY c) = true -> pre = [] ->
     r = match HalfSplit.scan y (draggedComponentId p)
                 (List.length (c :: post)) post 1 with
         | Some r' => r'
         | None => mkResult (List.length (componentIds p)) None
         end) /\
  (Qltb y (centerY c) = false -> post = [] ->
     r = mkResult (List.length (componentIds p)) None).
Proof.
  intros Hr Hs Hd. cbv zeta.
  rewrite (HalfSplit_stacked _ _ _ _ _ Hr Hs). cbv zeta. rewrite Hd.
  rewrite ltb_last_index.
  repeat split.
  - intros Hpre Hpost.
    destruct (Qltb (cursorY p) (centerY c)); simpl.
    + destruct (Nat.ltb_spec 0 (List.length pre)); [reflexivity | lia].
    + destruct post; [contradiction | reflexivity].
  - intros Ht Hpre. rewrite Ht. simpl.
    destruct (Nat.ltb_spec 0 (List.length pre)); [reflexivity | lia].
  - intros Ht Hpost. rewrite Ht. simpl.
    destruct post; [contradiction | reflexivity].
  - intros Ht Hpre. subst pre. rewrite Ht. reflexivity.
  - intros Ht Hpost. subst post. rewrite Ht. simpl.
    destruct (Nat.ltb 0 (List.length pre)); reflexivity.
Qed.

(** Witness of [halfSplit_dragged_box_rule]: dragging comp-2, the middle box,
    with the cursor at 230 (its top half). *)
Lemma halfSplit_dragged_box_rule_witness :
  hoveredComponentId
    (HalfSplit.calculateInsertionPoint testRects
       (mkParams 230 testIds (Some "comp-2"))) = Some "comp-2".
Proof.
  destruct (halfSplit_dragged_box_rule testRects
              (mkParams 230 testIds (Some "comp-2"))
              [testBox1] testBox2 [testBox3]
              (proj1 (proj2 testRects_resolved))
              (stackedAroundb_sound 230 [testBox1] testBox2 [testBox3] eq_refl) eq_refl)
    as [Hmid _].
  apply Hmid; [simpl; lia | discriminate].
Defined.

(** Counterexample to claim C2 as stated: the dragged box comp-2 is the
    middle one of three, yet the function resolves on it ([{1, comp-2}]);
    treating it as transparent would continue the scan over comp-3, which
    does not contain the cursor, and end at the fallback. *)
Lemma halfSplit_dragged_middle_counterexample :
  HalfSplit.calculateInsertionPoint testRects
    (mkParams 230 testIds (Some "comp-2")) = mkResult 1 (Some "comp-2") /\
  HalfSplit.scan 230 (Some "comp-2") 3 [testBox3] 2 = None.
Proof. split; vm_compute; reflexivity. Qed.

(** Claim C10.  The half-split variant can report the dragged component as
    its own hovered component: in the top half of the dragged box with a
    predecessor it returns [{i, draggedComponentId}], in the bottom half
    with a successor [{i + 1, draggedComponentId}]. *)
Theorem halfSplit_hovers_dragged qs p pre c post :
  componentRects qs (componentIds p) = pre ++ c :: post ->
  stackedAround (cursorY p) pre c post ->
  idEq (id c) (draggedComponentId p) = true ->
  (Qltb (cursorY p) (centerY c) = true -> 0 < List.length pre ->
     HalfSplit.calculateInsertionPoint qs p =
     mkResult (List.length pre) (draggedComponentId p)) /\
  (Qltb (cursorY p) (centerY c) = false -> post <> [] ->
     HalfSplit.calculateInsertionPoint qs p =
     mkResult (List.length pre + 1) (draggedComponentId p)).
Proof.
  intros Hr Hs Hd.
  rewrite (HalfSplit_stacked _ _ _ _ _ Hr Hs). cbv zeta.
  rewrite Hd, ltb_last_index, (idEq_true _ _ Hd).
  split.
  - intros Ht Hpre. rewrite Ht. simpl.
    destruct (Nat.ltb_spec 0 (List.length pre)); [reflexivity | lia].
  - intros Ht Hpost. rewrite Ht. simpl.
    destruct post; [contradiction | reflexivity].
Qed.

(** Witness of [halfSplit_hovers_dragged]: dragging comp-2 of the test
    geometry, cursor at 230 (top half) and at 280 (bottom half). *)
Lemma halfSplit_hovers_dragged_witness :
  HalfSplit.calculateInsertionPoint testRects
    (mkParams 230 testIds (Some "comp-2")) = mkResult 1 (Some "comp-2") /\
  HalfSplit.calculateInsertionPoint testRects
    (mkParams 280 testIds (Some "comp-2")) = mkResult 2 (Some "comp-2").
Proof.
  split.
  - apply (proj1 (halfSplit_hovers_dragged testRects
                    (mkParams 230 testIds (Some "comp-2"))
                    [testBox1] testBox2 [testBox3]
                    (proj1 (proj2 testRects_resolved))
                    (stackedAroundb_sound 230 [testBox1] testBox2 [testBox3] eq_refl)
                    eq_refl)).
    + reflexivity.
    + simpl. lia.
  - apply (proj2 (halfSplit_hovers_dragged testRects
                    (mkParams 280 testIds (Some "comp-2"))
                    [testBox1] testBox2 [testBox3]
                    (proj1 (proj2 testRects_resolved))
                    (stackedAroundb_sound 280 [testBox1] testBox2 [testBox3] eq_refl)
                    eq_refl)).
    + reflexivity.
    + discriminate.
Defined.

(** Claim C4.  The two variants are not interchangeable: on the test
    geometry with the cursor at 130 (top half of comp-1) the half-split one
    returns [{0, comp-1}] and the always-below one [{1, comp-1}]. *)
Theorem halfSplit_differs_from_alwaysBelow :
  exists (qs : string -> option DOMRect) (p : InsertionCalculationParams),
    HalfSplit.calculateInsertionPoint qs p <>
    AlwaysBelow.calculateInsertionPoint qs p.
Proof.
  exists testRects, (mkParams 130 testIds None).
  vm_compute. discriminate.
Qed.

(** ** Bounds of the result *)

Lemma HalfSplit_scan_bounded : scanBounded HalfSplit.scan.
Proof.
  intros y d n rects. induction rects as [|c rest IH]; intros i r; simpl;
    [discriminate|].
  case_ifs; intros H;
    try (injection H as <-; simpl; split;
         [lia | intros h Hh; injection Hh as <-; left; reflexivity]);
    destruct (IH _ _ H) as [Hi Hh]; split;
    [lia | intros h Eh; right; apply Hh, Eh
    |lia | intros h Eh; right; apply Hh, Eh].
Qed.

Lemma AlwaysBelow_scan_bounded : scanBounded AlwaysBelow.scan.
Proof.
  intros y d n rects. induction rects as [|c rest IH]; intros i r; simpl;
    [discriminate|].
  case_ifs; intros H;
    try (injection H as <-; simpl; split;
         [lia | intros h Hh; injection Hh as <-; left; reflexivity]);
    destruct (IH _ _ H) as [Hi Hh]; split;
    [lia | intros h Eh; right; apply Hh, Eh
    |lia | intros h Eh; right; apply Hh, Eh].
Qed.

Lemma calculateWith_bounded scan qs p :
  scanBounded scan ->
  insertionIndex (calculateWith scan qs p) <= List.length (componentIds p) /\
  (forall h, hoveredComponentId (calculateWith scan qs p) = Some h ->
             In h (componentIds p)).
Proof.
  intros Hscan. unfold calculateWith. cbv zeta.
  pose proof (componentRects_length qs (componentIds p)) as Hlen.
  assert (Hin : forall h, In h (map id (componentRects qs (componentIds p))) ->
                          In h (componentIds p)).
  { intros h Hh. apply in_map_iff in Hh. destruct Hh as [c [<- Hc]].
    exact (componentRects_In _ _ _ Hc). }
  destruct (Nat.eqb _ 0); [simpl; split; [lia | discriminate]|].
  destruct (componentRects qs (componentIds p)) as [|first rest] eqn:E;
    [simpl; split; [lia | discriminate]|].
  case_ifs; try (simpl; split; [lia | discriminate]).
  destruct (scan _ _ _ _ _) as [r|] eqn:Es; [|simpl; split; [lia | discriminate]].
  destruct (Hscan _ _ _ _ _ _ Es) as [Hi Hh]. split; [simpl in *; lia|].
  intros h Eh. apply Hin, Hh, Eh.
Qed.

Lemma calculateWith_defaults scan qs y ids d :
  let r := calculateWith scan qs (mkParams y ids d) in
  (ids = [] -> r = mkResult 0 None) /\
  (componentRects qs ids = [] -> r = mkResult 0 None) /\
  (forall first rest,
     componentRects qs ids = first :: rest ->
     Qltb y (top first) = false ->
     Qltb (bottom (lastRect first (first :: rest))) y = false ->
     scan y d (List.length (first :: rest)) (first :: rest) 0 = None ->
     r = mkResult (List.length ids) None).
Proof.
  cbv zeta. unfold calculateWith. cbn [cursorY componentIds draggedComponentId].
  repeat split.
  - intros ->. reflexivity.
  - intros E. rewrite E. destruct (Nat.eqb _ 0); reflexivity.
  - intros first rest E Ht Hb Hs.
    assert (Hne : Nat.eqb (List.length ids) 0 = false).
    { apply Nat.eqb_neq. pose proof (componentRects_length qs ids) as Hl.
      rewrite E in Hl. simpl in Hl. lia. }
    rewrite Hne, E, Ht, Hb, Hs. reflexivity.
Qed.

(** Claim C5.  For a non-empty id list the returned index lies in
    [0 .. componentIds.length], for both variants (an index in the resolved
    box list is at most its length, itself at most the number of ids). *)
Theorem insertionIndex_in_range qs p :
  componentIds p <> [] ->
  insertionIndex (HalfSplit.calculateInsertionPoint qs p) <=
    List.length (componentIds p) /\
  insertionIndex (AlwaysBelow.calculateInsertionPoint qs p) <=
    List.length (componentIds p).
Proof.
  intros _. split.
  - exact (proj1 (calculateWith_bounded _ qs p HalfSplit_scan_bounded)).
  - exact (proj1 (calculateWith_bounded _ qs p AlwaysBelow_scan_bounded)).
Qed.

(** Witness of [insertionIndex_in_range]: the test geometry below all boxes. *)
Lemma insertionIndex_in_range_witness :
  insertionIndex (HalfSplit.calculateInsertionPoint testRects
                    (mkParams 500 testIds None)) <= 3 /\
  insertionIndex (AlwaysBelow.calculateInsertionPoint testRects
                    (mkParams 500 testIds None)) <= 3.
Proof.
  apply (insertionIndex_in_range testRects (mkParams 500 testIds None)).
  discriminate.
Defined.

(** Claim C6.  A non-null hovered id is one of [componentIds], for both
    variants. *)
Theorem hoveredComponentId_member qs p h :
  (hoveredComponentId (HalfSplit.calculateInsertionPoint qs p) = Some h ->
   In h (componentIds p)) /\
  (hoveredComponentId (AlwaysBelow.calculateInsertionPoint qs p) = Some h ->
   In h (componentIds p)).
Proof.
  split.
  - exact (proj2 (calculateWith_bounded _ qs p HalfSplit_scan_bounded) h).
  - exact (proj2 (calculateWith_bounded _ qs p AlwaysBelow_scan_bounded) h).
Qed.

Lemma queryAll_throw qsE ids e :
  Throwing.queryAll qsE ids = Throwing.Throw e ->
  exists cid, In cid ids /\ qsE (Throwing.selector cid) = Throwing.Throw e.
Proof.
  induction ids as [|a ids IH]; simpl; [discriminate|].
  destruct (qsE (Throwing.selector a)) as [r|n] eqn:E.
  - destruct (Throwing.queryAll qsE ids) as [rs|n] eqn:Q; [discriminate|].
    intros H. inversion H; subst.
    destruct (IH eq_refl) as [cid [Hin Hc]].
    exists cid. split; [right; exact Hin | exact Hc].
  - intros H. inversion H; subst. exists a. split; [left; reflexivity | exact E].
Qed.

Lemma queryAll_normal qsE ids :
  Throwing.lookupsReturn qsE ids ->
  exists rs, Throwing.queryAll qsE ids = Throwing.Normal rs.
Proof.
  unfold Throwing.lookupsReturn.
  induction ids as [|a ids IH]; simpl; intros H; [eexists; reflexivity|].
  destruct (qsE (Throwing.selector a)) as [r|n] eqn:E.
  - destruct (IH (fun cid Hin => H cid (or_intror Hin))) as [rs Q].
    rewrite Q. eexists; reflexivity.
  - exfalso. exact (H a (or_introl eq_refl) n E).
Qed.

Lemma queryAll_some_throw qsE ids cid e :
  In cid ids -> qsE (Throwing.selector cid) = Throwing.Throw e ->
  exists e', Throwing.queryAll qsE ids = Throwing.Throw e'.
Proof.
  induction ids as [|a ids IH]; simpl; intros Hin Ht; [destruct Hin|].
  destruct (qsE (Throwing.selector a)) as [r|n] eqn:E.
  - destruct Hin as [<-|Hin]; [congruence|].
    destruct (IH Hin Ht) as [e' Q]. rewrite Q. eexists; reflexivity.
  - eexists; reflexivity.
Qed.

Lemma calculateInsertionPointWith_spec scan qsE y ids d :
  let c := Throwing.calculateInsertionPointWith scan qsE (mkParams y ids d) in
  (ids = [] -> c = Throwing.Normal (mkResult 0 None)) /\
  (forall e, c = Throwing.Throw e ->
     exists cid, In cid ids /\ qsE (Throwing.selector cid) = Throwing.Throw e) /\
  (forall cid e, In cid ids -> qsE (Throwing.selector cid) = Throwing.Throw e ->
     exists e', c = Throwing.Throw e') /\
  (Throwing.lookupsReturn qsE ids ->
     c = Throwing.Normal (calculateWith scan (Throwing.returned qsE) (mkParams y ids d))).
Proof.
  cbv zeta. unfold Throwing.calculateInsertionPointWith.
  cbn [componentIds]. split; [|split; [|split]].
  - intros ->. reflexivity.
  - intros e. destruct (Nat.eqb (List.length ids) 0); [discriminate|].
    destruct (Throwing.queryAll qsE ids) eqn:Q; [discriminate|].
    intros H. inversion H; subst. apply queryAll_throw. exact Q.
  - intros cid e Hin Ht.
    replace (Nat.eqb (List.length ids) 0) with false
      by (destruct ids; [destruct Hin | reflexivity]).
    destruct (queryAll_some_throw qsE ids cid e Hin Ht) as [e' Q].
    rewrite Q. eexists; reflexivity.
  - intros H. destruct (Nat.eqb (List.length ids) 0) eqn:L.
    + destruct ids; [reflexivity | discriminate].
    + destruct (queryAll_normal qsE ids H) as [rs Q]. rewrite Q. reflexivity.
Qed.

(** Claim C7 (corrected).  The only exceptions are those of
    [document.querySelector]: with lookups that may throw, both variants
    return [{0, null}] for an empty id list before any lookup; otherwise a
    call throws exactly when the lookup of some id's selector throws, with
    that exception; and when no lookup throws, the call returns the result
    of the lookups' rectangles, for any dragged id, present or not, and any
    set of unresolved boxes, with [{0, null}] when no box resolves and
    [{componentIds.length, null}] when the scan ends without resolving. *)
Theorem calculateInsertionPoint_total qsE y ids d :
  let p := mkParams y ids d in
  (ids = [] ->
     Throwing.halfSplit qsE p = Throwing.Normal (mkResult 0 None) /\
     Throwing.alwaysBelow qsE p = Throwing.Normal (mkResult 0 None)) /\
  (forall e,
     Throwing.halfSplit qsE p = Throwing.Throw e \/
     Throwing.alwaysBelow qsE p = Throwing.Throw e ->
     exists cid, In cid ids /\ qsE (Throwing.selector cid) = Throwing.Throw e) /\
  (forall cid e, In cid ids -> qsE (Throwing.selector cid) = Throwing.Throw e ->
     (exists e', Throwing.halfSplit qsE p = Throwing.Throw e') /\
     (exists e', Throwing.alwaysBelow qsE p = Throwing.Throw e')) /\
  (Throwing.lookupsReturn qsE ids ->
     Throwing.halfSplit qsE p =
       Throwing.Normal (HalfSplit.calculateInsertionPoint (Throwing.returned qsE) p) /\
     Throwing.alwaysBelow qsE p =
       Throwing.Normal (AlwaysBelow.calculateInsertionPoint (Throwing.returned qsE) p) /\
     (componentRects (Throwing.returned qsE) ids = [] ->
        Throwing.halfSplit qsE p = Throwing.Normal (mkResult 0 None) /\
        Throwing.alwaysBelow qsE p = Throwing.Normal (mkResult 0 None)) /\
     (forall first rest,
        componentRects (Throwing.returned qsE) ids = first :: rest ->
        Qltb y (top first) = false ->
        Qltb (bottom (lastRect first (first :: rest))) y = false ->
        (HalfSplit.scan y d (List.length (first :: rest)) (first :: rest) 0 = None ->
         Throwing.halfSplit qsE p = Throwing.Normal (mkResult (List.length ids) None)) /\
        (AlwaysBelow.scan y d (List.length (first :: rest)) (first :: rest) 0 = None ->
         Throwing.alwaysBelow qsE p =
           Throwing.Normal (mkResult (List.length ids) None)))).
Proof.
  cbv zeta. unfold Throwing.halfSplit, Throwing.alwaysBelow,
    HalfSplit.calculateInsertionPoint, AlwaysBelow.calculateInsertionPoint.
  destruct (calculateInsertionPointWith_spec HalfSplit.scan qsE y ids d)
    as [H1 [H2 [H3 H4]]].
  destruct (calculateInsertionPointWith_spec AlwaysBelow.scan qsE y ids d)
    as [B1 [B2 [B3 B4]]].
  split; [|split; [|split]].
  - intros E. split; [apply H1 | apply B1]; exact E.
  - intros e [E|E]; [apply H2 | apply B2]; exact E.
  - intros cid e Hin Ht. split; [apply (H3 cid e) | apply (B3 cid e)]; assumption.
  - intros Hl. rewrite (H4 Hl), (B4 Hl).
    destruct (calculateWith_defaults HalfSplit.scan (Throwing.returned qsE) y ids d)
      as [_ [D2 D3]].
    destruct (calculateWith_defaults AlwaysBelow.scan (Throwing.returned qsE) y ids d)
      as [_ [E2 E3]].
    split; [reflexivity|]. split; [reflexivity|]. split.
    + intros E. rewrite (D2 E), (E2 E). split; reflexivity.
    + intros first rest E Ht Hb. split.
      * intros Hs. rewrite (D3 first rest E Ht Hb Hs). reflexivity.
      * intros Hs. rewrite (E3 first rest E Ht Hb Hs). reflexivity.
Qed.

(** Counterexample to claim C7 as stated: in a document without the
    component, the id [quotedId] (a, double quote, b) makes both variants throw a [SyntaxError] from
    [document.querySelector], while the plain id [comp-1] returns [{0, null}]
    (no box resolves). *)
Lemma calculateInsertionPoint_throws_counterexample :
  Throwing.halfSplit Throwing.emptyDocument
    (mkParams 150%Q [Throwing.quotedId] None) = Throwing.Throw "SyntaxError" /\
  Throwing.alwaysBelow Throwing.emptyDocument
    (mkParams 150%Q [Throwing.quotedId] None) = Throwing.Throw "SyntaxError" /\
  Throwing.halfSplit Throwing.emptyDocument
    (mkParams 150%Q ["comp-1"] None) = Throwing.Normal (mkResult 0 None).
Proof.
  vm_compute. split; [reflexivity | split; reflexivity].
Qed.


(** The case of the spec's sixth scenario: dragging comp-1 with the cursor
    in its top half, comp-1 first in the list, is the end-of-list fallback. *)
Example own_top_half_fallback :
  HalfSplit.calculateInsertionPoint testRects
    (mkParams 130 testIds (Some "comp-1")) = mkResult 3 None.
Proof. vm_compute. reflexivity. Qed.

(** ** Further properties of the calculator *)

Lemma AlwaysBelow_stacked qs p pre c post :
  componentRects qs (componentIds p) = pre ++ c :: post ->
  stackedAround (cursorY p) pre c post ->
  AlwaysBelow.calculateInsertionPoint qs p =
  if idEq (id c) (draggedComponentId p) then
    match AlwaysBelow.scan (cursorY p) (draggedComponentId p)
            (List.length (pre ++ c :: post)) post (S (List.length pre)) with
    | Some r => r
    | None => mkResult (List.length (componentIds p)) None
    end
  else mkResult (List.length pre + 1) (Some (id c)).
Proof.
  intros Hr Hs. unfold AlwaysBelow.calculateInsertionPoint.
  rewrite (calculateWith_stacked _ _ _ _ _ _ Hr Hs).
  rewrite AlwaysBelow_scan_skip by exact (stackedAround_pre_below _ _ _ _ Hs).
  destruct Hs as [_ [[Hct Hcb] _]].
  simpl AlwaysBelow.scan at 1.
  rewrite (proj2 (Qle_bool_iff _ _) Hct), (proj2 (Qle_bool_iff _ _) Hcb).
  simpl andb.
  destruct (idEq (id c) (draggedComponentId p)); [|reflexivity].
  destruct (AlwaysBelow.scan _ _ _ post _); reflexivity.
Qed.

(** For a box under the cursor that is not the dragged one (always the case
    for a library item, whose dragged id is [null]), at index [i] of the
    resolved list: the half-split variant inserts before it ([i]) in its
    top half and after it ([i + 1]) otherwise; the always-below variant
    inserts after it ([i + 1]); both report it as hovered. *)
Theorem stacked_nondragged_rules qs p pre c post :
  componentRects qs (componentIds p) = pre ++ c :: post ->
  stackedAround (cursorY p) pre c post ->
  idEq (id c) (draggedComponentId p) = false ->
  HalfSplit.calculateInsertionPoint qs p =
    mkResult (if Qltb (cursorY p) (centerY c) then List.length pre
              else List.length pre + 1) (Some (id c)) /\
  AlwaysBelow.calculateInsertionPoint qs p =
    mkResult (List.length pre + 1) (Some (id c)).
Proof.
  intros Hr Hs Hd. split.
  - rewrite (HalfSplit_stacked _ _ _ _ _ Hr Hs). cbv zeta. rewrite Hd.
    destruct (Qltb (cursorY p) (centerY c)); reflexivity.
  - rewrite (AlwaysBelow_stacked _ _ _ _ _ Hr Hs), Hd. reflexivity.
Qed.

(** Witness of [stacked_nondragged_rules]: a library drag over comp-2 of the
    test geometry, cursor at 280 (its bottom half). *)
Lemma stacked_nondragged_rules_witness :
  HalfSplit.calculateInsertionPoint testRects (mkParams 280 testIds None) =
    mkResult 2 (Some "comp-2") /\
  AlwaysBelow.calculateInsertionPoint testRects (mkParams 280 testIds None) =
    mkResult 2 (Some "comp-2").
Proof.
  exact (stacked_nondragged_rules testRects (mkParams 280 testIds None)
           [testBox1] testBox2 [testBox3]
           (proj1 (proj2 testRects_resolved))
           (stackedAroundb_sound 280 [testBox1] testBox2 [testBox3] eq_refl)
           eq_refl).
Defined.

Lemma HalfSplit_scan_position y d n rects i r h :
  HalfSplit.scan y d n rects i = Some r -> hoveredComponentId r = Some h ->
  exists j, nth_error (map id rects) j = Some h /\
            (insertionIndex r = i + j \/ insertionIndex r = i + j + 1).
Proof.
  revert i. induction rects as [|c rest IH]; intros i; simpl; [discriminate|].
  case_ifs; intros H Hh;
    try (injection H as <-; simpl in Hh; injection Hh as <-;
         exists 0; simpl; split; [reflexivity | lia]);
    destruct (IH _ H Hh) as [j [Hj Hi]]; exists (S j); simpl;
    (split; [exact Hj | lia]).
Qed.

Lemma AlwaysBelow_scan_position y d n rects i r h :
  AlwaysBelow.scan y d n rects i = Some r -> hoveredComponentId r = Some h ->
  exists j, nth_error (map id rects) j = Some h /\ insertionIndex r = i + j + 1.
Proof.
  revert i. induction rects as [|c rest IH]; intros i; simpl; [discriminate|].
  case_ifs; intros H Hh;
    try (injection H as <-; simpl in Hh; injection Hh as <-;
         exists 0; simpl; split; [reflexivity | lia]);
    destruct (IH _ H Hh) as [j [Hj Hi]]; exists (S j); simpl;
    (split; [exact Hj | lia]).
Qed.

Lemma componentRects_all_resolved qs ids :
  (forall x, In x ids -> qs x <> None) -> map id (componentRects qs ids) = ids.
Proof.
  induction ids as [|cid ids IH]; intros Hall; [reflexivity|].
  rewrite componentRects_cons. unfold toComponentRect at 1.
  destruct (qs cid) eqn:E.
  - simpl. f_equal. apply IH. intros x Hx. apply Hall. right. exact Hx.
  - exfalso. apply (Hall cid); [left; reflexivity | exact E].
Qed.

Lemma calculateWith_hovered scan qs p h :
  hoveredComponentId (calculateWith scan qs p) = Some h ->
  scan (cursorY p) (draggedComponentId p)
       (List.length (componentRects qs (componentIds p)))
       (componentRects qs (componentIds p)) 0 = Some (calculateWith scan qs p).
Proof.
  unfold calculateWith. cbv zeta.
  destruct (Nat.eqb _ 0); [discriminate|].
  destruct (componentRects qs (componentIds p)) as [|first rest];
    [discriminate|].
  case_ifs; try discriminate.
  destruct (scan _ _ _ _ _); [reflexivity | discriminate].
Qed.

(** When every id has a rendered box, the returned index and hovered id
    agree with [componentIds]: the half-split variant's hovered id sits at
    the returned index or just before it, the always-below variant's just
    before it. *)
Theorem hovered_position_in_ids qs p h :
  (forall x, In x (componentIds p) -> qs x <> None) ->
  (let r := HalfSplit.calculateInsertionPoint qs p in
   hoveredComponentId r = Some h ->
   nth_error (componentIds p) (insertionIndex r) = Some h \/
   nth_error (componentIds p) (insertionIndex r - 1) = Some h) /\
  (let r := AlwaysBelow.calculateInsertionPoint qs p in
   hoveredComponentId r = Some h ->
   nth_error (componentIds p) (insertionIndex r - 1) = Some h).
Proof.
  intros Hall. pose proof (componentRects_all_resolved _ _ Hall) as Hids.
  split; cbv zeta.
  - intros Hh. unfold HalfSplit.calculateInsertionPoint in *.
    pose proof (calculateWith_hovered _ _ _ _ Hh) as Hs.
    destruct (HalfSplit_scan_position _ _ _ _ _ _ _ Hs Hh) as [j [Hj [Hi | Hi]]];
      rewrite Hids in Hj; rewrite Hi; simpl.
    + left. exact Hj.
    + right. replace (j + 1 - 1) with j by lia. exact Hj.
  - intros Hh. unfold AlwaysBelow.calculateInsertionPoint in *.
    pose proof (calculateWith_hovered _ _ _ _ Hh) as Hs.
    destruct (AlwaysBelow_scan_position _ _ _ _ _ _ _ Hs Hh) as [j [Hj Hi]].
    rewrite Hids in Hj. rewrite Hi. simpl.
    replace (j + 1 - 1) with j by lia. exact Hj.
Qed.

(** Witness of [hovered_position_in_ids]: the test geometry, where every
    id resolves, cursor at 280. *)
Lemma hovered_position_in_ids_witness :
  let r := HalfSplit.calculateInsertionPoint testRects (mkParams 280 testIds None) in
  nth_error testIds (insertionIndex r) = Some "comp-2" \/
  nth_error testIds (insertionIndex r - 1) = Some "comp-2".
Proof.
  assert (Hall : forall x, In x testIds -> testRects x <> None).
  { intros x Hx. simpl in Hx.
    destruct Hx as [<- | [<- | [<- | []]]]; discriminate. }
  exact (proj1 (hovered_position_in_ids testRects (mkParams 280 testIds None)
                  "comp-2" Hall) eq_refl).
Defined.

(** With an id whose box is missing, the index is one in the resolved list:
    comp-1 is second in the ids, yet inserting before it returns 0. *)
Example missing_box_shifts_index :
  HalfSplit.calculateInsertionPoint testRects
    (mkParams 130 ["comp-missing"; "comp-1"] None) = mkResult 0 (Some "comp-1").
Proof. vm_compute. reflexivity. Qed.

(** ** Claims on the drag session *)

Module DragSessionFacts.
Import DragSession.

Lemma optNatEqb_true a b : optNatEqb a b = true -> a = b.
Proof.
  destruct a, b; simpl; try discriminate; [|reflexivity].
  intros H. apply Nat.eqb_eq in H. subst. reflexivity.
Qed.

Lemma optStringEqb_true a b : optStringEqb a b = true -> a = b.
Proof.
  destruct a, b; simpl; try discriminate; [|reflexivity].
  intros H. apply String.eqb_eq in H. subst. reflexivity.
Qed.

(** After the updater, the three sampled fields hold the sample, whether
    or not the state record was replaced. *)
Lemma handleDragMove_fields qs layout s e :
  let r := handleDragMove qs layout s e in
  isOverCanvas r = fst (moveSample qs layout s e) /\
  insertionIndex r = fst (snd (moveSample qs layout s e)) /\
  hoveredComponentId r = snd (snd (moveSample qs layout s e)).
Proof.
  cbv zeta. unfold handleDragMove.
  destruct (moveSample qs layout s e) as [ov [i h]]. simpl.
  destruct (Bool.eqb (isOverCanvas s) ov) eqn:E1;
    destruct (optNatEqb (insertionIndex s) i) eqn:E2;
    destruct (optStringEqb (hoveredComponentId s) h) eqn:E3;
    simpl; auto.
  apply Bool.eqb_prop in E1. apply optNatEqb_true in E2.
  apply optStringEqb_true in E3. auto.
Qed.

Lemma moveSample_off_canvas qs layout s e :
  fst (moveSample qs layout s e) = false ->
  snd (moveSample qs layout s e) = (None, None).
Proof.
  unfold moveSample. simpl. intros H. rewrite H. reflexivity.
Qed.

Lemma moveSample_index qs layout s e :
  fst (snd (moveSample qs layout s e)) <> None <->
  fst (moveSample qs layout s e) = true /\ move_delta e = true /\
  active_translated (move_active e) <> None.
Proof.
  unfold moveSample. simpl.
  destruct (optStringEqb _ _); destruct (move_delta e); simpl;
    try (split; [intros H; contradiction H; reflexivity
                | intros [H1 [H2 _]]; discriminate]).
  destruct (active_translated (move_active e)) as [[t h]|].
  - destruct (HalfSplit.calculateInsertionPoint _ _). simpl.
    split; [intros _; repeat split; discriminate | intros _; discriminate].
  - simpl. split; [intros H; contradiction H; reflexivity
                  | intros [_ [_ H]]; contradiction H; reflexivity].
Qed.

Lemma moveSample_empty_layout qs s e :
  fst (moveSample qs [] s e) = true -> move_delta e = true ->
  active_translated (move_active e) <> None ->
  fst (snd (moveSample qs [] s e)) = Some 0.
Proof.
  unfold moveSample. cbv zeta. cbn [fst snd]. intros H1 H2 H3.
  rewrite H1, H2. cbn [andb].
  destruct (active_translated (move_active e)) as [[t h]|];
    [reflexivity | contradiction H3; reflexivity].
Qed.

(** Claim C8 (corrected).  In every reachable state, a pointer not over
    the drop surface ([isOverCanvas] false) has [insertionIndex] and
    [hoveredComponentId] null: no value survives leaving the surface.
    After a move sample, [insertionIndex] is non-null exactly when the
    sample was over a canvas component, had a delta and a measured active
    rectangle; with an empty layout such a sample gives 0, not null. *)
Theorem insertionIndex_null_off_canvas :
  (forall s, reachable s -> isOverCanvas s = false ->
             insertionIndex s = None /\ hoveredComponentId s = None) /\
  (forall qs layout s e,
     let r := handleDragMove qs layout s e in
     insertionIndex r <> None <->
     isOverCanvas r = true /\ move_delta e = true /\
     active_translated (move_active e) <> None) /\
  (forall qs s e,
     let r := handleDragMove qs [] s e in
     isOverCanvas r = true -> move_delta e = true ->
     active_translated (move_active e) <> None ->
     insertionIndex r = Some 0).
Proof.
  split; [|split].
  - intros s Hr. induction Hr as [|qs layout s ev Hr IH];
      [intros _; split; reflexivity|].
    destruct ev as [a|e|e|]; simpl.
    + intros _. split; reflexivity.
    + destruct (handleDragMove_fields qs layout s e) as [Ho [Hi Hh]].
      rewrite Ho, Hi, Hh. intros Hoff.
      rewrite (moveSample_off_canvas _ _ _ _ Hoff). split; reflexivity.
    + unfold handleDragEnd. destruct (end_over e); simpl;
        intros _; split; reflexivity.
    + intros _. split; reflexivity.
  - intros qs layout s e. cbv zeta.
    destruct (handleDragMove_fields qs layout s e) as [Ho [Hi _]].
    rewrite Ho, Hi. apply moveSample_index.
  - intros qs s e. cbv zeta.
    destruct (handleDragMove_fields qs [] s e) as [Ho [Hi _]].
    rewrite Ho, Hi. apply moveSample_empty_layout.
Qed.

(** Counterexample to claim C8 as stated: over a canvas component, with a
    non-empty layout, a sample whose active rectangle is not measured
    leaves [insertionIndex] null; and over a canvas component with an
    empty layout the index is 0, not null. *)
Lemma insertionIndex_null_counterexample :
  let s1 := handleDragStart unmeasuredActive in
  let s2 := handleDragMove testRects testIds s1
              (mkDragMoveEvent unmeasuredActive (Some overComp2) true) in
  let s3 := handleDragMove testRects [] s1
              (mkDragMoveEvent measuredActive (Some overComp2) true) in
  reachable s2 /\
  ~ (insertionIndex s2 = None <-> isOverCanvas s2 = false \/ testIds = []) /\
  reachable s3 /\
  ~ (insertionIndex s3 = None <-> isOverCanvas s3 = false \/ @nil string = []).
Proof.
  cbv zeta. split; [|split; [|split]].
  - exact (reachable_step testRects testIds _
             (DragMove (mkDragMoveEvent unmeasuredActive (Some overComp2) true))
             (reachable_step testRects testIds _ (DragStart unmeasuredActive)
                reachable_idle)).
  - vm_compute. intros [H _]. destruct (H eq_refl) as [H1 | H1]; discriminate.
  - exact (reachable_step testRects [] _
             (DragMove (mkDragMoveEvent measuredActive (Some overComp2) true))
             (reachable_step testRects [] _ (DragStart unmeasuredActive)
                reachable_idle)).
  - vm_compute. intros [_ H]. specialize (H (or_intror eq_refl)). discriminate.
Qed.

(** Claim C3.  On a drop over a target, for a canvas item found at
    [oldIndex] of the layout and a resolved [insertionIndex = rawIndex],
    the reorder callback receives [rawIndex - 1] when
    [rawIndex > oldIndex], [rawIndex] otherwise, and is not called when
    that target is [oldIndex]; the state is reset.  In the spec's scenario
    ([A; B; C], A dragged, index 2) the target is 1 and the reorder gives
    [B; A; C]. *)
Theorem handleDragEnd_reorder_target layout s a o oldIndex rawIndex :
  data_type (active_data a) = Some "canvas-component" ->
  findIndex layout (active_id a) = Z.of_nat oldIndex ->
  insertionIndex s = Some rawIndex ->
  let target := if Nat.ltb oldIndex rawIndex then rawIndex - 1 else rawIndex in
  handleDragEnd layout s (mkDragEndEvent a (Some o)) =
    (idleState,
     if Nat.eqb target oldIndex then []
     else [ComponentReorder (Z.of_nat oldIndex) (Z.of_nat target)]) /\
  snd (handleDragEnd ["A"; "B"; "C"] stateA (mkDragEndEvent activeA (Some overB)))
    = [ComponentReorder 0 1] /\
  applyReorders ["A"; "B"; "C"]
    (snd (handleDragEnd ["A"; "B"; "C"] stateA
            (mkDragEndEvent activeA (Some overB)))) = ["B"; "A"; "C"].
Proof.
  intros Ht Hf Hi. cbv zeta. split; [|split; vm_compute; reflexivity].
  unfold handleDragEnd. simpl. rewrite Ht, Hf, Hi. simpl.
  replace (Z.eqb (Z.of_nat oldIndex) (-1)) with false
    by (symmetry; apply Z.eqb_neq; lia).
  destruct (Nat.ltb_spec oldIndex rawIndex) as [Hlt | Hge].
  - replace (Z.ltb (Z.of_nat oldIndex) (Z.of_nat rawIndex)) with true
      by (symmetry; apply Z.ltb_lt; lia).
    replace (Z.of_nat rawIndex - 1)%Z with (Z.of_nat (rawIndex - 1)) by lia.
    replace (Z.eqb (Z.of_nat (rawIndex - 1)) (-1)) with false
      by (symmetry; apply Z.eqb_neq; lia).
    destruct (Nat.eqb_spec (rawIndex - 1) oldIndex) as [E | E].
    + rewrite E, Z.eqb_refl. reflexivity.
    + replace (Z.eqb (Z.of_nat oldIndex) (Z.of_nat (rawIndex - 1))) with false
        by (symmetry; apply Z.eqb_neq; lia). reflexivity.
  - replace (Z.ltb (Z.of_nat oldIndex) (Z.of_nat rawIndex)) with false
      by (symmetry; apply Z.ltb_ge; lia).
    replace (Z.eqb (Z.of_nat rawIndex) (-1)) with false
      by (symmetry; apply Z.eqb_neq; lia).
    destruct (Nat.eqb_spec rawIndex oldIndex) as [E | E].
    + rewrite E, Z.eqb_refl. reflexivity.
    + replace (Z.eqb (Z.of_nat oldIndex) (Z.of_nat rawIndex)) with false
        by (symmetry; apply Z.eqb_neq; lia). reflexivity.
Qed.

(** Witness of [handleDragEnd_reorder_target]: the spec's scenario. *)
Lemma handleDragEnd_reorder_target_witness :
  handleDragEnd ["A"; "B"; "C"] stateA (mkDragEndEvent activeA (Some overB)) =
  (idleState, [ComponentReorder 0 1]).
Proof.
  exact (proj1 (handleDragEnd_reorder_target ["A"; "B"; "C"] stateA activeA overB
                  0 2 eq_refl eq_refl eq_refl)).
Defined.

(** Claim C9.  A cancel, and a drop with no target, reset the state to the
    idle record and perform no layout mutation (a drop outside may only
    show a toast). *)
Theorem cancel_and_drop_outside_reset qs layout s a :
  handleDragCancel = idleState /\
  dispatch qs layout s DragCancel = (idleState, []) /\
  fst (handleDragEnd layout s (mkDragEndEvent a None)) = idleState /\
  forallb (fun e => negb (isLayoutMutation e))
    (snd (handleDragEnd layout s (mkDragEndEvent a None))) = true /\
  applyReorders layout (snd (handleDragEnd layout s (mkDragEndEvent a None)))
    = layout.
Proof.
  unfold handleDragEnd. simpl.
  destruct (negb (optStringEqb _ _)); repeat split; reflexivity.
Qed.

End DragSessionFacts.

(** ** Further properties of the drag hooks, the modifier and the dialog *)

Module DragSessionExtras.
Import DragSession.

Lemma findIndex_cons y rest x :
  findIndex (y :: rest) x =
  if String.eqb y x then 0%Z
  else if Z.eqb (findIndex rest x) (-1) then (-1)%Z
  else (findIndex rest x + 1)%Z.
Proof.
  simpl. destruct (String.eqb y x); [reflexivity|].
  destruct (findIndex rest x) as [|q|[q|q|]]; reflexivity.
Qed.

(** [findIndex] is [-1] exactly for an absent id; otherwise it is an index
    of the layout holding the id, its first occurrence. *)
Theorem findIndex_spec layout x :
  let k := findIndex layout x in
  (k = (-1)%Z <-> ~ In x layout) /\
  (k <> (-1)%Z ->
   (0 <= k)%Z /\ (k < Z.of_nat (List.length layout))%Z /\
   nth_error layout (Z.to_nat k) = Some x /\
   (forall j, j < Z.to_nat k -> nth_error layout j <> Some x)).
Proof.
  cbv zeta. induction layout as [|y rest [IH1 IH2]].
  - simpl. split; [split; [intros _ []|reflexivity] | intros H; contradiction].
  - rewrite findIndex_cons. destruct (String.eqb_spec y x) as [<- | Hne].
    + split.
      * split; [discriminate | intros H; exfalso; apply H; left; reflexivity].
      * intros _. simpl. repeat split; try lia; try (intros j Hj; lia).
    + destruct (Z.eqb_spec (findIndex rest x) (-1)) as [E | E].
      * split; [|intros H; contradiction H; reflexivity].
        split; [|reflexivity]. intros _ [H | H]; [contradiction | ].
        apply (proj1 IH1 E). exact H.
      * destruct (IH2 E) as [H0 [Hlt [Hnth Hfirst]]].
        split; [split; [lia | intros H; exfalso; apply H; right;
                              exact (nth_error_In _ _ Hnth)] |].
        intros _. change (List.length (y :: rest)) with (S (List.length rest)).
        replace (Z.to_nat (findIndex rest x + 1)) with (S (Z.to_nat (findIndex rest x)))
          by lia.
        repeat split; try lia; [exact Hnth|].
        intros [|j] Hj; simpl.
        -- intros H. injection H as H. contradiction.
        -- apply Hfirst. lia.
Qed.

(** Witness of [findIndex_spec]: "B" in [A; B; C] is at index 1. *)
Lemma findIndex_spec_witness :
  nth_error ["A"; "B"; "C"] (Z.to_nat (findIndex ["A"; "B"; "C"] "B")) = Some "B".
Proof.
  exact (proj1 (proj2 (proj2 (proj2 (findIndex_spec ["A"; "B"; "C"] "B")
                                 ltac:(discriminate))))).
Defined.

Lemma moveSample_bound qs layout s e :
  (forall i, fst (snd (moveSample qs layout s e)) = Some i ->
             i <= List.length layout) /\
  (forall h, snd (snd (moveSample qs layout s e)) = Some h -> In h layout).
Proof.
  unfold moveSample. simpl.
  destruct (optStringEqb _ _); destruct (move_delta e); simpl;
    try (split; intros; discriminate).
  destruct (active_translated (move_active e)) as [[t hh]|];
    [|split; intros; discriminate].
  unfold HalfSplit.calculateInsertionPoint.
  match goal with
  | |- context [calculateWith ?sc ?q ?pp] =>
      pose proof (calculateWith_bounded sc q pp HalfSplit_scan_bounded) as [B1 B2];
      set (r := calculateWith sc q pp) in *; clearbody r
  end.
  destruct r as [idx hov]. simpl in *.
  split; [intros i Hi; injection Hi as <-; exact B1 | exact B2].
Qed.

(** A move sample changes only the three sampled fields: the drag's
    identity ([isDragging], [draggedComponentType], [draggedId],
    [isReordering]) is kept. *)
Theorem handleDragMove_keeps_identity qs layout s e :
  let r := handleDragMove qs layout s e in
  isDragging r = isDragging s /\
  draggedComponentType r = draggedComponentType s /\
  draggedId r = draggedId s /\
  isReordering r = isReordering s.
Proof.
  cbv zeta. unfold handleDragMove.
  destruct (moveSample qs layout s e) as [ov [i h]].
  case_ifs; repeat split; reflexivity.
Qed.

Lemma moveSample_reordering qs layout s s' e :
  isReordering s = isReordering s' -> moveSample qs layout s e = moveSample qs layout s' e.
Proof. intros H. unfold moveSample. rewrite H. reflexivity. Qed.

Lemma optNatEqb_refl a : optNatEqb a a = true.
Proof. destruct a; simpl; [apply Nat.eqb_refl | reflexivity]. Qed.

Lemma optStringEqb_refl a : optStringEqb a a = true.
Proof. destruct a; simpl; [apply String.eqb_refl | reflexivity]. Qed.

(** A repeated move sample is a no-op: delivering the same event twice
    gives the state of delivering it once (the updater returns [prev]). *)
Theorem handleDragMove_idempotent qs layout s e :
  handleDragMove qs layout (handleDragMove qs layout s e) e =
  handleDragMove qs layout s e.
Proof.
  set (s1 := handleDragMove qs layout s e).
  destruct (handleDragMove_keeps_identity qs layout s e) as [_ [_ [_ Hre]]].
  destruct (DragSessionFacts.handleDragMove_fields qs layout s e) as [Ho [Hi Hh]].
  fold s1 in Hre, Ho, Hi, Hh.
  unfold handleDragMove at 1.
  rewrite (moveSample_reordering qs layout s1 s e Hre).
  destruct (moveSample qs layout s e) as [ov [i h]]. simpl in Ho, Hi, Hh.
  rewrite Ho, Hi, Hh, Bool.eqb_reflx, optNatEqb_refl, optStringEqb_refl.
  reflexivity.
Qed.

(** Over a fixed layout, every reachable state holds an insertion index of
    at most the layout's length and a hovered id of the layout. *)
Theorem reachableIn_bounds qs layout s :
  reachableIn qs layout s ->
  (forall i, insertionIndex s = Some i -> i <= List.length layout) /\
  (forall h, hoveredComponentId s = Some h -> In h layout).
Proof.
  intros Hr. induction Hr as [|s ev Hr IH].
  - split; intros; discriminate.
  - destruct ev as [a|e|e|]; simpl.
    + split; intros; discriminate.
    + destruct (DragSessionFacts.handleDragMove_fields qs layout s e) as [_ [Hi Hh]].
      rewrite Hi, Hh. apply moveSample_bound.
    + unfold handleDragEnd. destruct (end_over e); simpl; split; intros; discriminate.
    + split; intros; discriminate.
Qed.

(** Witness of [reachableIn_bounds]: start and one move of a library item
    over comp-2 of the test geometry. *)
Lemma reachableIn_bounds_witness :
  insertionIndex
    (handleDragMove testRects testIds (handleDragStart libraryActive)
       (mkDragMoveEvent libraryActive (Some overComp2) true)) = Some 1 /\
  1 <= List.length testIds.
Proof.
  split; [vm_compute; reflexivity|].
  apply (proj1 (reachableIn_bounds testRects testIds _
                  (reachableIn_step testRects testIds _
                     (DragMove (mkDragMoveEvent libraryActive (Some overComp2) true))
                     (reachableIn_step testRects testIds _
                        (DragStart libraryActive) (reachableIn_idle _ _))))).
  vm_compute. reflexivity.
Defined.

(** Over a fixed layout, a reorder callback always receives two distinct
    in-range indices, the first being the dragged item's position. *)
Theorem handleDragEnd_reorder_in_range qs layout s e f t :
  reachableIn qs layout s ->
  In (ComponentReorder f t) (snd (handleDragEnd layout s e)) ->
  (0 <= f < Z.of_nat (List.length layout))%Z /\
  (0 <= t < Z.of_nat (List.length layout))%Z /\ f <> t /\
  nth_error layout (Z.to_nat f) = Some (active_id (end_active e)).
Proof.
  intros Hr Hin. destruct (reachableIn_bounds qs layout s Hr) as [Hb _].
  unfold handleDragEnd in Hin. cbv zeta in Hin.
  destruct (end_over e) as [o|]; simpl in Hin.
  - destruct (optStringEqb (data_type (active_data (end_active e)))
                (Some "canvas-component")).
    + set (old := findIndex layout (active_id (end_active e))) in Hin.
      destruct (findIndex_spec layout (active_id (end_active e))) as [_ Hold].
      fold old in Hold.
      match type of Hin with
      | In _ (if ?c then _ else _) => destruct c eqn:C
      end; simpl in Hin; [|contradiction].
      destruct Hin as [Heq | []]. injection Heq as <- <-.
      apply andb_true_iff in C as [C C3]. apply andb_true_iff in C as [C1 C2].
      apply negb_true_iff, Z.eqb_neq in C1, C2, C3.
      destruct (Hold C1) as [Ho0 [Holt [Honth _]]].
      split; [lia|]. split; [|split; [exact C3 | exact Honth]].
      destruct (insertionIndex s) as [ins|] eqn:Ei.
      * specialize (Hb ins eq_refl).
        destruct (Z.ltb_spec old (Z.of_nat ins)); lia.
      * destruct (findIndex_spec layout (over_id o)) as [_ Hnew].
        destruct (Hnew C2) as [Hn0 [Hnlt _]]. lia.
    + destruct (data_componentType _), (match insertionIndex s with
                                        | Some ins => Some ins
                                        | None => data_index (over_data o)
                                        end);
        simpl in Hin; try contradiction.
      destruct (negb _); simpl in Hin; [destruct Hin as [H | []]; discriminate
                                       | contradiction].
  - destruct (negb _); simpl in Hin; [destruct Hin as [H | []]; discriminate
                                     | contradiction].
Qed.

(** Witness of [handleDragEnd_reorder_in_range]: the spec's scenario, from
    a start and a move over [A; B; C] (no boxes rendered), dropped over B. *)
Lemma handleDragEnd_reorder_in_range_witness :
  (0 <= 0 < 3)%Z /\ (0 <= 1 < 3)%Z /\ 0%Z <> 1%Z /\
  nth_error ["A"; "B"; "C"] 0 = Some "A".
Proof.
  apply (handleDragEnd_reorder_in_range (fun _ => None) ["A"; "B"; "C"]
           (handleDragStart activeA) (mkDragEndEvent activeA (Some overB)) 0 1
           (reachableIn_step _ _ _ (DragStart activeA) (reachableIn_idle _ _))).
  vm_compute. left. reflexivity.
Defined.

(** A drop performs at most one effect; it is a toast exactly when a
    library item (not a canvas component) is dropped outside any target. *)
Theorem handleDragEnd_single_effect layout s e :
  List.length (snd (handleDragEnd layout s e)) <= 1 /\
  ((exists m, In (Toast m) (snd (handleDragEnd layout s e))) <->
   end_over e = None /\
   optStringEqb (data_type (active_data (end_active e)))
     (Some "canvas-component") = false).
Proof.
  unfold handleDragEnd. cbv zeta.
  destruct (end_over e) as [o|]; simpl.
  - split.
    + destruct (optStringEqb _ _); [case_ifs; simpl; lia|].
      destruct (data_componentType _), (match insertionIndex s with
                                        | Some ins => Some ins
                                        | None => data_index (over_data o)
                                        end);
        simpl; try destruct (negb _); simpl; lia.
    + split; [|intros [H _]; discriminate].
      intros [m H]. destruct (optStringEqb _ _).
      * revert H; case_ifs; simpl; intros H; try contradiction;
          destruct H as [H | []]; discriminate.
      * destruct (data_componentType _), (match insertionIndex s with
                                          | Some ins => Some ins
                                          | None => data_index (over_data o)
                                          end);
          simpl in H; try contradiction.
        destruct (negb _); simpl in H; [destruct H as [H | []]; discriminate
                                       | contradiction].
  - destruct (optStringEqb _ _); simpl; (split; [lia|]).
    + split; [intros [m []] | intros [_ H]; discriminate].
    + split; [intros _; split; reflexivity
             | intros _; eexists; left; reflexivity].
Qed.

(** A library item dropped on a target, with an insertion point from the
    session's last sample over the same layout, is added there: exactly one
    add callback, at an index of at most the layout's length. *)
Theorem handleDragEnd_adds_at_insertion_point qs layout s a o ct i :
  reachableIn qs layout s ->
  optStringEqb (data_type (active_data a)) (Some "canvas-component") = false ->
  data_componentType (active_data a) = Some ct ->
  ct <> "" ->
  insertionIndex s = Some i ->
  snd (handleDragEnd layout s (mkDragEndEvent a (Some o))) = [ComponentAdd ct i] /\
  i <= List.length layout.
Proof.
  intros Hr Ht Hc Hne Hi. split.
  - unfold handleDragEnd. simpl. rewrite Ht, Hc, Hi. unfold truthy.
    replace (String.eqb ct "") with false
      by (symmetry; apply String.eqb_neq; exact Hne).
    reflexivity.
  - exact (proj1 (reachableIn_bounds qs layout s Hr) i Hi).
Qed.

(** Witness of [handleDragEnd_adds_at_insertion_point]: a Hero library item
    sampled at cursor 150 over the test geometry (insertion index 1),
    dropped over comp-2. *)
Lemma handleDragEnd_adds_at_insertion_point_witness :
  snd (handleDragEnd testIds
         (handleDragMove testRects testIds (handleDragStart libraryActive)
            (mkDragMoveEvent libraryActive (Some overComp2) true))
         (mkDragEndEvent libraryActive (Some overComp2))) =
    [ComponentAdd "Hero" 1] /\ 1 <= List.length testIds.
Proof.
  apply (handleDragEnd_adds_at_insertion_point testRects testIds _
           libraryActive overComp2 "Hero" 1
           (reachableIn_step testRects testIds _
              (DragMove (mkDragMoveEvent libraryActive (Some overComp2) true))
              (reachableIn_step testRects testIds _
                 (DragStart libraryActive) (reachableIn_idle _ _))));
    [reflexivity | reflexivity | discriminate | vm_compute; reflexivity].
Defined.

(** Without an insertion point, the current hook falls back to the earlier
    hook of [part_011]: the same callbacks and toast for every drop. *)
Theorem handleDragEnd_fallback_is_legacy layout s e :
  insertionIndex s = None ->
  snd (handleDragEnd layout s e) = snd (LegacyDragSession.handleDragEnd layout e).
Proof.
  intros Hi. unfold handleDragEnd, LegacyDragSession.handleDragEnd. cbv zeta.
  rewrite Hi. destruct (end_over e); reflexivity.
Qed.

(** Witness of [handleDragEnd_fallback_is_legacy]: A dropped over B in
    [A; B; C] right after the drag start. *)
Lemma handleDragEnd_fallback_is_legacy_witness :
  snd (handleDragEnd ["A"; "B"; "C"] (handleDragStart activeA)
         (mkDragEndEvent activeA (Some overB))) =
  snd (LegacyDragSession.handleDragEnd ["A"; "B"; "C"]
         (mkDragEndEvent activeA (Some overB))).
Proof.
  apply handleDragEnd_fallback_is_legacy. reflexivity.
Defined.

(** In the earlier hook a reorder moves the dragged item onto the position
    of the item dropped over: two distinct in-range indices holding the
    dragged id and the target's id. *)
Theorem legacy_reorder_in_range layout e f t :
  In (ComponentReorder f t) (snd (LegacyDragSession.handleDragEnd layout e)) ->
  (0 <= f < Z.of_nat (List.length layout))%Z /\
  (0 <= t < Z.of_nat (List.length layout))%Z /\ f <> t /\
  nth_error layout (Z.to_nat f) = Some (active_id (end_active e)) /\
  exists o, end_over e = Some o /\ nth_error layout (Z.to_nat t) = Some (over_id o).
Proof.
  intros Hin. unfold LegacyDragSession.handleDragEnd in Hin. cbv zeta in Hin.
  destruct (end_over e) as [o|]; simpl in Hin.
  - destruct (optStringEqb _ _).
    + match type of Hin with
      | In _ (if ?c then _ else _) => destruct c eqn:C
      end; simpl in Hin; [|contradiction].
      destruct Hin as [Heq | []]. injection Heq as <- <-.
      apply andb_true_iff in C as [C C3]. apply andb_true_iff in C as [C1 C2].
      apply negb_true_iff, Z.eqb_neq in C1, C2, C3.
      destruct (proj2 (findIndex_spec layout (active_id (end_active e))) C1)
        as [Ho0 [Holt [Honth _]]].
      destruct (proj2 (findIndex_spec layout (over_id o)) C2)
        as [Hn0 [Hnlt [Hnnth _]]].
      repeat split; try lia; [exact Honth | exists o; split; [reflexivity | exact Hnnth]].
    + destruct (data_componentType _), (data_index (over_data o));
      simpl in Hin; try contradiction.
      destruct (negb _); simpl in Hin; [destruct Hin as [H | []]; discriminate
                                       | contradiction].
  - destruct (negb _); simpl in Hin; [destruct Hin as [H | []]; discriminate
                                     | contradiction].
Qed.

(** Witness of [legacy_reorder_in_range]: A dropped over B in [A; B; C]. *)
Lemma legacy_reorder_in_range_witness :
  (0 <= 0 < 3)%Z /\ (0 <= 1 < 3)%Z /\ 0%Z <> 1%Z /\
  nth_error ["A"; "B"; "C"] 0 = Some "A" /\
  exists o, Some overB = Some o /\ nth_error ["A"; "B"; "C"] 1 = Some (over_id o).
Proof.
  apply (legacy_reorder_in_range ["A"; "B"; "C"] (mkDragEndEvent activeA (Some overB))).
  vm_compute. left. reflexivity.
Defined.

(** Every drop, whatever its target and outcome, returns the session to its
    idle state. *)
Theorem handleDragEnd_resets layout s e :
  fst (handleDragEnd layout s e) = idleState.
Proof.
  unfold handleDragEnd. cbv zeta. destruct (end_over e); reflexivity.
Qed.

End DragSessionExtras.

(** ** Facts on [conditionalAxisRestriction] *)

Module DragModifierFacts.
Import DragSession DragModifiers.

(** The modifier only ever pins the horizontal offset to zero: the vertical
    offset and the scales pass through, the result is either the transform
    itself or the transform with [x = 0], and applying it twice changes
    nothing more. *)
Theorem conditionalAxisRestriction_vertical_only t d :
  let r := conditionalAxisRestriction t d in
  conditionalAxisRestriction r d = r /\
  y r = y t /\ scaleX r = scaleX t /\ scaleY r = scaleY t /\
  (r = t \/ (x r = 0%Q /\ exists data, d = Some data /\
             data_type data = Some "canvas-component")).
Proof.
  unfold conditionalAxisRestriction. cbv zeta.
  destruct d as [data|].
  - destruct (optStringEqb (data_type data) (Some "canvas-component")) eqn:E;
      cbn iota; rewrite ?E; cbn.
    + repeat split; try reflexivity. right. split; [reflexivity|].
      exists data. split; [reflexivity|].
      apply DragSessionFacts.optStringEqb_true. exact E.
    + repeat split; try reflexivity. left. reflexivity.
  - repeat split; try reflexivity. left. reflexivity.
Qed.

(** A library item (any type other than [canvas-component]) follows the
    cursor: its transform is returned unchanged. *)
Theorem conditionalAxisRestriction_library_free t data :
  data_type data <> Some "canvas-component" ->
  conditionalAxisRestriction t (Some data) = t.
Proof.
  intros Hne. unfold conditionalAxisRestriction. cbv zeta.
  destruct (optStringEqb (data_type data) (Some "canvas-component")) eqn:E;
    [|reflexivity].
  exfalso. apply Hne. apply DragSessionFacts.optStringEqb_true. exact E.
Qed.

(** Witness of [conditionalAxisRestriction_library_free]: a library item
    moved by (30, 40). *)
Lemma conditionalAxisRestriction_library_free_witness :
  conditionalAxisRestriction (mkTransform 30 40 1 1)
    (Some (mkDndData (Some "library-component") (Some "Hero") None)) =
  mkTransform 30 40 1 1.
Proof.
  apply conditionalAxisRestriction_library_free. discriminate.
Defined.

End DragModifierFacts.

(** ** Facts on the delete confirmation of [Canvas] *)

Module DeleteDialogFacts.
Import DeleteDialog.

Lemma runDialog_snd_cons st ev rest :
  snd (runDialog st (ev :: rest)) =
  snd (dialogStep st ev) ++ snd (runDialog (fst (dialogStep st ev)) rest).
Proof.
  simpl. destruct (dialogStep st ev) as [s1 d1]. simpl.
  destruct (runDialog s1 rest) as [s2 d2]. reflexivity.
Qed.

Lemma runDialog_deleted st evs :
  (forall c, In c (snd (runDialog st evs)) ->
     (st = Some c \/ In c (clicked evs)) /\ c <> "") /\
  List.length (snd (runDialog st evs)) <=
    (match st with Some _ => 1 | None => 0 end) + List.length (clicked evs).
Proof.
  revert st. induction evs as [|ev rest IH]; intros st.
  - simpl. split; [intros c []|lia].
  - rewrite runDialog_snd_cons.
    destruct ev as [cid| |];
      [| destruct st as [c0|]; [destruct (String.eqb c0 "") eqn:Ec|] |];
      simpl; unfold handleDeleteClick, handleCancelDelete; try rewrite Ec; simpl.
    + destruct (IH (Some cid)) as [H1 H2]. split.
      * intros c Hc. destruct (H1 c Hc) as [[Heq|Hin] Hne]; split;
          try exact Hne; right; [left; congruence | right; exact Hin].
      * destruct st; simpl in *; lia.
    + apply IH.
    + destruct (IH None) as [H1 H2]. split.
      * intros c [<-|Hc].
        -- split; [left; reflexivity | apply String.eqb_neq; exact Ec].
        -- destruct (H1 c Hc) as [[Heq|Hin] Hne]; [discriminate|].
           split; [right; exact Hin | exact Hne].
      * simpl in H2. lia.
    + apply IH.
    + destruct (IH None) as [H1 H2]. split.
      * intros c Hc. destruct (H1 c Hc) as [[Heq|Hin] Hne]; [discriminate|].
        split; [right; exact Hin | exact Hne].
      * destruct st; simpl in *; lia.
Qed.

Lemma runDialog_fst_cons st ev rest :
  fst (runDialog st (ev :: rest)) =
  fst (runDialog (fst (dialogStep st ev)) rest).
Proof.
  simpl. destruct (dialogStep st ev) as [s1 d1]. simpl.
  destruct (runDialog s1 rest) as [s2 d2]. reflexivity.
Qed.

Lemma runDialog_deleted_at st evs c :
  In c (snd (runDialog st evs)) ->
  exists pre post, evs = pre ++ ConfirmDelete :: post /\
    fst (runDialog st pre) = Some c /\
    (st = Some c \/ In c (clicked pre)) /\ c <> "".
Proof.
  revert st. induction evs as [|ev rest IH]; intros st; [intros []|].
  rewrite runDialog_snd_cons. intros Hin. apply in_app_or in Hin as [Hin|Hin].
  - destruct ev as [cid| |]; simpl in Hin; try contradiction.
    destruct st as [c0|]; simpl in Hin; [|contradiction].
    destruct (String.eqb c0 "") eqn:Ec; simpl in Hin; [contradiction|].
    destruct Hin as [<-|[]].
    exists [], rest. split; [reflexivity|]. split; [reflexivity|].
    split; [left; reflexivity | apply String.eqb_neq; exact Ec].
  - destruct (IH _ Hin) as [pre [post [Heq [Hst [Hcl Hne]]]]].
    exists (ev :: pre), post. split; [simpl; rewrite Heq; reflexivity|].
    split; [rewrite runDialog_fst_cons; exact Hst|]. split; [|exact Hne].
    destruct ev as [cid| |]; simpl in Hcl |- *.
    + unfold handleDeleteClick in Hcl.
      right. destruct Hcl as [Heq'|Hc]; [left; congruence | right; exact Hc].
    + destruct st as [c0|]; simpl in Hcl;
        [destruct (String.eqb c0 "") in Hcl; simpl in Hcl|];
        destruct Hcl as [Heq'|Hc]; try discriminate; auto.
    + unfold handleCancelDelete in Hcl.
      destruct Hcl as [Heq'|Hc]; [discriminate | right; exact Hc].
Qed.

(** From a closed dialog, every deleted id was clicked before and is not
    empty, and no session deletes more components than it has delete
    clicks: each deletion happens at a confirmation, when the dialog holds
    that id, which a click earlier in the run put there. *)
Theorem runDialog_deletes_only_clicked evs :
  (forall c, In c (snd (runDialog None evs)) ->
     In c (clicked evs) /\ c <> "" /\
     exists pre post, evs = pre ++ ConfirmDelete :: post /\
       fst (runDialog None pre) = Some c /\ In c (clicked pre)) /\
  List.length (snd (runDialog None evs)) <= List.length (clicked evs).
Proof.
  destruct (runDialog_deleted None evs) as [H1 H2]. split.
  - intros c Hc. destruct (H1 c Hc) as [[Heq|Hin] Hne]; [discriminate|].
    split; [exact Hin|]. split; [exact Hne|].
    destruct (runDialog_deleted_at None evs c Hc)
      as [pre [post [Heq [Hst [Hcl _]]]]].
    exists pre, post. split; [exact Heq|]. split; [exact Hst|].
    destruct Hcl as [Hcl|Hcl]; [discriminate | exact Hcl].
  - simpl in H2. exact H2.
Qed.

(** Confirming deletes the id awaiting confirmation and closes the
    dialog; cancelling closes it without a deletion. *)
Theorem confirm_after_click_deletes c rest :
  c <> "" ->
  snd (runDialog None (DeleteClick c :: ConfirmDelete :: rest)) =
    c :: snd (runDialog None rest) /\
  snd (runDialog None (DeleteClick c :: CancelDelete :: rest)) =
    snd (runDialog None rest).
Proof.
  intros Hne. rewrite !runDialog_snd_cons. simpl.
  apply String.eqb_neq in Hne. rewrite Hne. split; reflexivity.
Qed.

(** Witness of [confirm_after_click_deletes]: deleting comp-2. *)
Lemma confirm_after_click_deletes_witness :
  snd (runDialog None (DeleteClick "comp-2" :: ConfirmDelete :: [])) =
    "comp-2" :: snd (runDialog None []) /\
  snd (runDialog None (DeleteClick "comp-2" :: CancelDelete :: [])) =
    snd (runDialog None []).
Proof.
  apply confirm_after_click_deletes. discriminate.
Defined.

End DeleteDialogFacts.
